(** * apple_scrape.py: table normalisation, JSON cache and relational mirror

    A shallow embedding of [src/apple_scrape.py].

    Modelling conventions.
    - Python [str] values are Rocq [string]s read as ASCII text; [rstrip],
      [upper] and [int] are written out for that alphabet (the white space
      of [str.isspace] below code point 128 is 9..13, 28..31 and 32).
      Characters outside ASCII are not part of the model.
    - A BeautifulSoup row is reduced to what the program reads from it: the
      [bgcolor] attribute, the first [td] (its [rowspan] attribute and its
      text) and the text of the first [a].
    - The store ([data]) is a Python dict from product names to
      [{"release date", "category"}] records: an association list in
      insertion order, since [SQL_update_database] iterates it in that order.
    - A raised exception is an explicit outcome; the store is mutated in
      place, so the outcome of [add_25_entries] always carries the store.
    - SQLite tables are lists of rows in insertion order; a table that has
      not been created is [None].  The id the engine draws at random for a
      new row, when the largest rowid is in use, is a parameter.
    - The [json] module is a library: its decoder and encoder are
      parameters of the functions that call them. *)

From Stdlib Require Import String Ascii List ZArith Bool Arith Lia.
Import ListNotations.

Local Open Scope string_scope.
Local Open Scope list_scope.

(** ** Python strings *)

Module PyStr.

(** [str.isspace] on one ASCII character. *)
Definition is_space (c : ascii) : bool :=
  let n := nat_of_ascii c in
  (((9 <=? n) && (n <=? 13)) || ((28 <=? n) && (n <=? 32)))%nat.

(** [s.rstrip()]: trailing white space removed. *)
Fixpoint rstrip (s : string) : string :=
  match s with
  | EmptyString => EmptyString
  | String c rest =>
      match rstrip rest with
      | EmptyString => if is_space c then EmptyString else String c EmptyString
      | kept => String c kept
      end
  end.

(** The white space [int] skips at both ends of an ASCII string: the C
    [isspace] set, 9..13 and 32. *)
Definition is_c_space (c : ascii) : bool :=
  let n := nat_of_ascii c in
  (((9 <=? n) && (n <=? 13)) || (n =? 32))%nat.

Fixpoint lstrip_c (s : string) : string :=
  match s with
  | EmptyString => EmptyString
  | String c rest => if is_c_space c then lstrip_c rest else s
  end.

Fixpoint rstrip_c (s : string) : string :=
  match s with
  | EmptyString => EmptyString
  | String c rest =>
      match rstrip_c rest with
      | EmptyString => if is_c_space c then EmptyString else String c EmptyString
      | kept => String c kept
      end
  end.

Definition upper_char (c : ascii) : ascii :=
  let n := nat_of_ascii c in
  if ((97 <=? n) && (n <=? 122))%nat then ascii_of_nat (n - 32) else c.

(** [s.upper()]. *)
Fixpoint upper (s : string) : string :=
  match s with
  | EmptyString => EmptyString
  | String c rest => String (upper_char c) (upper rest)
  end.

Definition digit_val (c : ascii) : option Z :=
  let n := nat_of_ascii c in
  if ((48 <=? n) && (n <=? 57))%nat then Some (Z.of_nat (n - 48)) else None.

(** The digits of a decimal literal as [int] reads them: at least one
    digit, single underscores allowed between digits only. *)
Fixpoint parse_digits (s : string) (acc : Z) (after_digit : bool) : option Z :=
  match s with
  | EmptyString => if after_digit then Some acc else None
  | String c rest =>
      if Ascii.eqb c "_"%char
      then (if after_digit then parse_digits rest acc false else None)
      else match digit_val c with
           | Some d => parse_digits rest (10 * acc + d)%Z true
           | None => None
           end
  end.

(** [int(s)] in base 10; [None] stands for [ValueError].  The limit CPython
    3.11 puts on the number of digits is not modelled. *)
Definition int (s : string) : option Z :=
  match lstrip_c (rstrip_c s) with
  | String "+"%char digits => parse_digits digits 0 false
  | String "-"%char digits => option_map Z.opp (parse_digits digits 0 false)
  | digits => parse_digits digits 0 false
  end.

End PyStr.

(** ** Exceptions and outcomes *)

Inductive exception : Type :=
| KeyError
| ValueError
| AttributeError
| TypeError
| OperationalError
| FileNotFoundError
| JSONDecodeError.

Inductive outcome (A : Type) : Type :=
| Return (value : A)
| Raise (exc : exception).

Arguments Return {A} value.
Arguments Raise {A} exc.

Definition bind {A B : Type} (m : outcome A) (k : A -> outcome B) : outcome B :=
  match m with
  | Return a => k a
  | Raise e => Raise e
  end.

Notation "x <- m ;; k" := (bind m (fun x => k))
  (at level 61, m at next level, right associativity).
Notation "' pat <- m ;; k" := (bind m (fun x => match x with pat => k end))
  (at level 61, pat pattern, m at next level, right associativity).

(** ** The colour table *)

(** [color_code_lookup(color_code)], branch for branch. *)
Definition color_code_lookup (color_code : string) : string :=
  if (color_code =? "#FFFF79") || (color_code =? "FFFF79") then "Apple 1/2/2GS/3"
  else if (color_code =? "#81D666") || (color_code =? "81D666") then "Lisa"
  else if (color_code =? "#95CEFE") || (color_code =? "95CEFE") then "Macintosh"
  else if (color_code =? "#8BFFA3") || (color_code =? "8BFFA3") then "Network Server"
  else if (color_code =? "#CCFF99") || (color_code =? "CCFF99") || (color_code =? "#CF9")
       then "Phones/Tablets/PDAs"
  else if (color_code =? "#FFE5E5") || (color_code =? "FFE5E5") then "iPod/Consumer Products"
  else if (color_code =? "#D8D8F2") || (color_code =? "D8D8F2") then "Computer Peripherals"
  else "N/A".

(** The argument the loop passes: [row['bgcolor'].rstrip().upper()]. *)
Definition normalized_bgcolor (bgcolor : string) : string :=
  PyStr.upper (PyStr.rstrip bgcolor).

(** The seven six-digit colour tokens with their labels, in the order of the
    branches of [color_code_lookup]. *)
Definition color_table : list (string * string) :=
  [ ("FFFF79", "Apple 1/2/2GS/3");
    ("81D666", "Lisa");
    ("95CEFE", "Macintosh");
    ("8BFFA3", "Network Server");
    ("CCFF99", "Phones/Tablets/PDAs");
    ("FFE5E5", "iPod/Consumer Products");
    ("D8D8F2", "Computer Peripherals") ].

(** Every literal [color_code_lookup] compares its argument with. *)
Definition known_color_codes : list string :=
  [ "#FFFF79"; "FFFF79"; "#81D666"; "81D666"; "#95CEFE"; "95CEFE";
    "#8BFFA3"; "8BFFA3"; "#CCFF99"; "CCFF99"; "#CF9";
    "#FFE5E5"; "FFE5E5"; "#D8D8F2"; "D8D8F2" ].

(** ** The parsed table *)

(** The first [td] of a row: its [rowspan] attribute, when it has one, and
    its text. *)
Record td : Type := mk_td {
  td_rowspan : option string;
  td_text : string
}.

(** A [tr] of the document: its [bgcolor] attribute, when it has one, the
    result of [row.find('td')] and the text of [row.find('a')]. *)
Record tr : Type := mk_tr {
  tr_bgcolor : option string;
  tr_td : option td;
  tr_a : option string
}.

(** The document, as the list of its [tr] tags in document order. *)
Definition soup : Type := list tr.

(** [soup.find_all('tr', bgcolor=True)]. *)
Definition find_all_tr_bgcolor (doc : soup) : list tr :=
  filter (fun row => match tr_bgcolor row with Some _ => true | None => false end) doc.

(** ** The store *)

Record entry_details : Type := mk_entry {
  release_date : string;
  category : string
}.

Definition store : Type := list (string * entry_details).

(** [data.get(key)]; [None] is Python's [None]. *)
Fixpoint dict_get (key : string) (data : store) : option entry_details :=
  match data with
  | [] => None
  | (k, v) :: rest => if k =? key then Some v else dict_get key rest
  end.

(** [data[key] = value]: an existing key keeps its position, a new key goes
    last. *)
Fixpoint dict_set (key : string) (value : entry_details) (data : store) : store :=
  match data with
  | [] => [(key, value)]
  | (k, v) :: rest =>
      if k =? key then (k, value) :: rest else (k, v) :: dict_set key value rest
  end.

Definition dict_keys (data : store) : list string := map fst data.

(** ** add_25_entries *)

(** The local variables of the loop, with the store they mutate. *)
Record loop_state : Type := mk_state {
  rowspan : Z;
  rowspan_date : string;
  entries_added : nat;
  data : store
}.

(** Lines 105-107: a first cell with a [rowspan] attribute resets the
    counter and the carried date. *)
Definition read_rowspan (row_data : td) (st : loop_state) : outcome (Z * string) :=
  match td_rowspan row_data with
  | Some attr =>
      match PyStr.int attr with
      | Some n => Return (n, PyStr.rstrip (td_text row_data))
      | None => Raise ValueError
      end
  | None => Return (rowspan st, rowspan_date st)
  end.

(** Lines 110-123: the name and the record of the row, and the counter after
    it. *)
Definition make_entry (row_data : td) (row_name : option string)
    (row_category : string) (span : Z) (span_date : string)
  : outcome (string * entry_details * Z) :=
  match row_name with
  | None => Raise AttributeError
  | Some text =>
      let entry_name := PyStr.rstrip text in
      if negb (span =? 0)%Z
      then Return (entry_name, mk_entry span_date row_category, (span - 1)%Z)
      else Return (entry_name,
                   mk_entry (PyStr.rstrip (td_text row_data)) row_category,
                   span)
  end.

(** One iteration of the loop body, lines 96-128. *)
Definition loop_body (row : tr) (st : loop_state) : outcome loop_state :=
  bgcolor <- match tr_bgcolor row with
             | Some v => Return v
             | None => Raise KeyError
             end ;;
  let row_category := color_code_lookup (normalized_bgcolor bgcolor) in
  match tr_td row with
  | Some row_data =>
      ' (span, span_date) <- read_rowspan row_data st ;;
      ' (entry_name, details, span') <-
          make_entry row_data (tr_a row) row_category span span_date ;;
      match dict_get entry_name (data st) with
      | None =>
          Return (mk_state span' span_date (S (entries_added st))
                           (dict_set entry_name details (data st)))
      | Some _ =>
          Return (mk_state span' span_date (entries_added st) (data st))
      end
  | None => Return st
  end.

(** The [for] loop with its [break]: the state when the loop is left, and
    the exception that left it, if any. *)
Fixpoint for_rows (table_list : list tr) (st : loop_state)
  : loop_state * option exception :=
  match table_list with
  | [] => (st, None)
  | row :: rest =>
      match loop_body row st with
      | Raise e => (st, Some e)
      | Return st' =>
          if (25 <=? entries_added st')%nat then (st', None) else for_rows rest st'
      end
  end.

Definition initial_state (data : store) : loop_state :=
  mk_state 0 "" 0 data.

(** Leaving the loop: the store as the call leaves it, and what the call
    returns or raises. *)
Definition leave_loop (exit : loop_state * option exception) : store * outcome nat :=
  let '(st, exc) := exit in
  (data st,
   match exc with
   | None => Return (entries_added st)
   | Some e => Raise e
   end).

(** [add_25_entries(soup, data)]: the store after the call and what the call
    returned or raised. *)
Definition add_25_entries (doc : soup) (data0 : store) : store * outcome nat :=
  leave_loop (for_rows (find_all_tr_bgcolor doc) (initial_state data0)).

(** The loop after a completed iteration: the [break] test of lines 132-133,
    then the remaining rows. *)
Definition continue_rows (rest : list tr) (st : loop_state)
  : loop_state * option exception :=
  if (25 <=? entries_added st)%nat then (st, None) else for_rows rest st.

(** ** Paths and files *)

Module PosixPath.

Definition is_absolute (path : string) : bool :=
  match path with
  | String "/"%char _ => true
  | _ => false
  end.

Fixpoint ends_with_slash (path : string) : bool :=
  match path with
  | EmptyString => false
  | String c EmptyString => Ascii.eqb c "/"%char
  | String _ rest => ends_with_slash rest
  end.

(** [os.path.join(a, b)]. *)
Definition join (a b : string) : string :=
  if is_absolute b then b
  else if (a =? "") || ends_with_slash a then a ++ b
  else a ++ "/" ++ b.

(** [p[:p.rfind('/') + 1]]: the path up to and including its last slash. *)
Fixpoint head_to_last_slash (p : string) : string :=
  match p with
  | EmptyString => EmptyString
  | String c rest =>
      match head_to_last_slash rest with
      | EmptyString => if Ascii.eqb c "/"%char then String c EmptyString else EmptyString
      | h => String c h
      end
  end.

Fixpoint all_slashes (p : string) : bool :=
  match p with
  | EmptyString => true
  | String c rest => Ascii.eqb c "/"%char && all_slashes rest
  end.

(** [head.rstrip('/')]. *)
Fixpoint rstrip_slashes (p : string) : string :=
  match p with
  | EmptyString => EmptyString
  | String c rest =>
      match rstrip_slashes rest with
      | EmptyString => if Ascii.eqb c "/"%char then EmptyString else String c EmptyString
      | kept => String c kept
      end
  end.

(** [os.path.dirname(p)]. *)
Definition dirname (p : string) : string :=
  let head := head_to_last_slash p in
  if negb (head =? "") && negb (all_slashes head) then rstrip_slashes head else head.

End PosixPath.

(** The process: the module's [__file__] and the current working directory
    (an absolute path, as [os.getcwd()] gives it). *)
Record process : Type := mk_process {
  dunder_file : string;
  getcwd : string
}.

(** The files on disk: contents by absolute path.  Paths name files by
    their text: [.], [..] and links are not interpreted. *)
Definition filesystem : Type := string -> option string.

(** The file a path handed to [open] names: a relative path is taken from
    the working directory. *)
Definition resolve (proc : process) (path : string) : string :=
  PosixPath.join (getcwd proc) path.

Definition open_read (proc : process) (fs : filesystem) (path : string)
  : outcome string :=
  match fs (resolve proc path) with
  | Some contents => Return contents
  | None => Raise FileNotFoundError
  end.

Definition open_write (proc : process) (fs : filesystem) (path contents : string)
  : filesystem :=
  fun p => if p =? resolve proc path then Some contents else fs p.

(** [try: body  except: handler] with a bare [except], which catches every
    exception. *)
Definition try_except {A : Type} (body handler : outcome A) : outcome A :=
  match body with
  | Return a => Return a
  | Raise _ => handler
  end.

Section JSONFile.

(** The [json] module is a library: [json.load] on the text of a file (a
    store, or [JSONDecodeError]) and [json.dump(data, indent=2)]. *)
Variable json_load : string -> outcome store.
Variable json_dump : store -> string.

(** The path [load_JSON] opens, lines 34-35. *)
Definition load_path (proc : process) (filename : string) : string :=
  let source_dir := PosixPath.dirname (dunder_file proc) in
  PosixPath.join source_dir filename.

(** [load_JSON(filename)]. *)
Definition load_JSON (proc : process) (fs : filesystem) (filename : string)
  : outcome store :=
  try_except
    (infile <- open_read proc fs (load_path proc filename) ;;
     loaded <- json_load infile ;;
     Return loaded)
    (Return []).

(** [write_JSON(filename, data)]. *)
Definition write_JSON (proc : process) (fs : filesystem) (filename : string)
    (data0 : store) : filesystem :=
  open_write proc fs filename (json_dump data0).

(** [add_entries_to_JSON()], given the parsed response. *)
Definition add_entries_to_JSON (proc : process) (fs : filesystem) (doc : soup)
  : filesystem * outcome store :=
  match load_JSON proc fs "apple_products.json" with
  | Raise e => (fs, Raise e)
  | Return loaded =>
      match add_25_entries doc loaded with
      | (_, Raise e) => (fs, Raise e)
      | (data1, Return _) =>
          (write_JSON proc fs "apple_products.json" data1, Return data1)
      end
  end.

End JSONFile.

(** ** The relational mirror *)

Record category_row : Type := mk_category_row {
  cat_id : Z;
  cat_category : string
}.

Record product_row : Type := mk_product_row {
  prod_id : Z;
  prod_name : string;
  prod_release_date : string;
  prod_category : Z
}.

Record database : Type := mk_database {
  Apple_Categories : option (list category_row);
  Apple_Products : option (list product_row)
}.

(** [CREATE TABLE IF NOT EXISTS]: the rows of the table afterwards. *)
Definition create_table_if_not_exists {A : Type} (table : option (list A)) : list A :=
  match table with
  | Some rows => rows
  | None => []
  end.

(** [INSERT OR IGNORE INTO Apple_Categories (id, category) VALUES (?,?)]:
    ignored when the primary key or the unique label is taken. *)
Definition insert_or_ignore_category (id : Z) (label : string)
    (rows : list category_row) : list category_row :=
  if existsb (fun r => (cat_id r =? id)%Z || (cat_category r =? label)) rows
  then rows
  else rows ++ [mk_category_row id label].

Definition categories : list string :=
  [ "Apple 1/2/2GS/3"; "Lisa"; "Macintosh"; "Network Server";
    "Phones/Tablets/PDAs"; "iPod/Consumer Products"; "Computer Peripherals" ].

(** The loop [for i in range(len(categories))] from index [i] on. *)
Fixpoint insert_categories (i : Z) (labels : list string)
    (rows : list category_row) : list category_row :=
  match labels with
  | [] => rows
  | label :: rest => insert_categories (i + 1) rest (insert_or_ignore_category i label rows)
  end.

(** [SQL_create_categories(cur, conn)]. *)
Definition SQL_create_categories (db : database) : database :=
  let rows := create_table_if_not_exists (Apple_Categories db) in
  mk_database (Some (insert_categories 0 categories rows)) (Apple_Products db).

(** [SELECT id FROM Apple_Categories WHERE category = (?)] followed by
    [cur.fetchone()[0]]: no table is [OperationalError], no row makes
    [fetchone()] return [None], whose subscript is [TypeError]. *)
Definition select_category_id (table : option (list category_row)) (label : string)
  : outcome Z :=
  match table with
  | None => Raise OperationalError
  | Some rows =>
      match find (fun r => cat_category r =? label) rows with
      | Some r => Return (cat_id r)
      | None => Raise TypeError
      end
  end.

(** The largest rowid: rowids are signed 64-bit integers. *)
Definition MAX_ROWID : Z := 9223372036854775807.

Section Engine.

(** When the largest rowid is in use the engine draws rowids at random
    until it finds one that is not in use.  The id it settles on for a given
    table is a parameter of the model; that the engine gives up after a
    fixed number of draws that all collide is not modelled. *)
Variable random_rowid : list product_row -> Z.

(** The rowid SQLite gives a new row: 1 in an empty table, else one more
    than the largest in use, unless that is [MAX_ROWID]. *)
Definition next_rowid (rows : list product_row) : Z :=
  match rows with
  | [] => 1
  | r :: rest =>
      let largest := fold_left Z.max (map prod_id rest) (prod_id r) in
      if (largest <? MAX_ROWID)%Z then largest + 1 else random_rowid rows
  end.

(** [INSERT OR IGNORE INTO Apple_Products (name, release_date, category)
    VALUES (?,?,?)]: ignored when the unique name is taken. *)
Definition insert_or_ignore_product (name date : string) (category_id : Z)
    (rows : list product_row) : list product_row :=
  if existsb (fun r => prod_name r =? name) rows
  then rows
  else rows ++ [mk_product_row (next_rowid rows) name date category_id].

(** [data[key]]. *)
Definition dict_getitem (key : string) (data0 : store) : outcome entry_details :=
  match dict_get key data0 with
  | Some v => Return v
  | None => Raise KeyError
  end.

(** The loop [for product_name in data], over the keys still to visit. *)
Fixpoint update_products (cats : option (list category_row)) (data0 : store)
    (keys : list string) (rows : list product_row) : outcome (list product_row) :=
  match keys with
  | [] => Return rows
  | product_name :: rest =>
      details <- dict_getitem product_name data0 ;;
      category_id <- select_category_id cats (category details) ;;
      update_products cats data0 rest
        (insert_or_ignore_product product_name (release_date details) category_id rows)
  end.

(** [SQL_update_database(cur, conn, data)]: the database on disk afterwards
    and how the call ended.  The table is created outside a transaction;
    the inserted rows are committed only by the final [conn.commit()]. *)
Definition SQL_update_database (db : database) (data0 : store)
  : database * outcome unit :=
  let rows := create_table_if_not_exists (Apple_Products db) in
  match update_products (Apple_Categories db) data0 (dict_keys data0) rows with
  | Return rows' => (mk_database (Apple_Categories db) (Some rows'), Return tt)
  | Raise e => (mk_database (Apple_Categories db) (Some rows), Raise e)
  end.

End Engine.

Section Main.

Variable json_load : string -> outcome store.
Variable json_dump : store -> string.
Variable random_rowid : list product_row -> Z.

(** [main()], given the database file, the files on disk and the parsed
    response. *)
Definition main (proc : process) (fs : filesystem) (db : database) (doc : soup)
  : filesystem * database * outcome unit :=
  let db1 := SQL_create_categories db in
  match add_entries_to_JSON json_load json_dump proc fs doc with
  | (fs', Raise e) => (fs', db1, Raise e)
  | (fs', Return data1) =>
      let '(db2, result) := SQL_update_database random_rowid db1 data1 in
      (fs', db2, result)
  end.

End Main.

(** ** Vocabulary of the statements *)

(** Two strings that differ at most in the case of their ASCII letters. *)
Fixpoint eq_ignore_case (s t : string) : bool :=
  match s, t with
  | EmptyString, EmptyString => true
  | String a s', String b t' =>
      Ascii.eqb (PyStr.upper_char a) (PyStr.upper_char b) && eq_ignore_case s' t'
  | _, _ => false
  end.

(** The name and the category the loop computes for a row that has a link
    and a [bgcolor]. *)
Definition row_name (row : tr) : string :=
  match tr_a row with
  | Some text => PyStr.rstrip text
  | None => ""
  end.

Definition row_category (row : tr) : string :=
  match tr_bgcolor row with
  | Some bgcolor => color_code_lookup (normalized_bgcolor bgcolor)
  | None => ""
  end.

(** The record of a row under a given date. *)
Definition dated_record (date : string) (row : tr) : string * entry_details :=
  (row_name row, mk_entry date (row_category row)).

(** A row whose first cell exists and declares no span of its own. *)
Definition plain_first_cell (row : tr) : Prop :=
  exists cell, tr_td row = Some cell /\ td_rowspan cell = None.

(** The rows of the store that carry a given name. *)
Definition rows_named (name : string) (rows : list product_row) : list product_row :=
  filter (fun r => prod_name r =? name) rows.

(** A table of [n] rows with pairwise different names, every one eligible. *)
Fixpoint tally (n : nat) : string :=
  match n with
  | O => EmptyString
  | S k => String "I"%char (tally k)
  end.

Definition catalogue (n : nat) : soup :=
  map (fun i => mk_tr (Some "95CEFE") (Some (mk_td None "1984")) (Some (tally (S i))))
      (seq 0 n).

(** A small table: a header row without [bgcolor], a first cell spanning
    two rows, the row it covers, and a row after the span. *)
Definition span_first : tr :=
  mk_tr (Some "#FFFF79") (Some (mk_td (Some "2") "1977 ")) (Some "Apple II").

Definition span_follower : tr :=
  mk_tr (Some "d8d8f2") (Some (mk_td None "Disk II")) (Some "Disk II ").

Definition span_after : tr :=
  mk_tr (Some "81D666") (Some (mk_td None "1983")) (Some "Lisa").

Definition span_table : soup :=
  [ mk_tr None (Some (mk_td None "Year")) (Some "Timeline");
    span_first; span_follower; span_after ].

(** A row that opens a span of three while another span is active. *)
Definition respan_row : tr :=
  mk_tr (Some "95CEFE") (Some (mk_td (Some " 3") "1984 ")) (Some "Macintosh 128K").

(** The row of the end-to-end example. *)
Definition lisa_row : tr :=
  mk_tr (Some "81D666") (Some (mk_td None "1983")) (Some "Lisa").

(** The category table [SQL_create_categories] leaves in a new database. *)
Definition seeded_categories : list category_row :=
  [ mk_category_row 0 "Apple 1/2/2GS/3";
    mk_category_row 1 "Lisa";
    mk_category_row 2 "Macintosh";
    mk_category_row 3 "Network Server";
    mk_category_row 4 "Phones/Tablets/PDAs";
    mk_category_row 5 "iPod/Consumer Products";
    mk_category_row 6 "Computer Peripherals" ].

(** Directories as [os.getcwd()] and [os.path.dirname] of a normalised
    absolute path give them: absolute, without a trailing slash unless the
    root, and without empty, [.] or [..] components. *)
Fixpoint split_slash (p : string) : list string :=
  match p with
  | EmptyString => [EmptyString]
  | String c rest =>
      match split_slash rest with
      | comp :: comps =>
          if Ascii.eqb c "/"%char then EmptyString :: comp :: comps
          else String c comp :: comps
      | [] => []
      end
  end.

Definition proper_component (comp : string) : bool :=
  negb (comp =? "") && negb (comp =? ".") && negb (comp =? "..").

Definition normalized_directory (d : string) : bool :=
  (d =? "/")
  || (PosixPath.is_absolute d
      && negb (PosixPath.ends_with_slash d)
      && forallb proper_component (tl (split_slash d))).

(** A file name with no directory part. *)
Definition plain_filename (f : string) : bool :=
  match split_slash f with
  | [comp] => proper_component comp
  | _ => false
  end.

(** A stand-in for [json.load] and [json.dump] in the examples: it reads
    the empty object only, and writes a store without records as the empty
    object. *)
Definition sample_json_load (contents : string) : outcome store :=
  if contents =? "{}" then Return [] else Raise JSONDecodeError.

Definition sample_json_dump (data0 : store) : string :=
  match data0 with
  | [] => "{}"
  | _ :: _ => "{ ... }"
  end.

(** A run started from the home directory on a script kept elsewhere. *)
Definition sample_process : process :=
  mk_process "/home/user/project/apple_scrape.py" "/home/user".

Definition corrupt_disk : filesystem :=
  fun path =>
    if path =? "/home/user/project/apple_products.json" then Some "{ 'Lisa': " else None.

Definition empty_disk : filesystem := fun _ => None.

(** A record whose name is in the store and whose label has a row in the
    category table. *)
Definition resolves (cats : option (list category_row)) (data0 : store)
    (key : string) : Prop :=
  exists details id,
    dict_get key data0 = Some details
    /\ select_category_id cats (category details) = Return id.

(** A store with a record of a colour the table does not know. *)
Definition stale_store : store :=
  [ ("Lisa", mk_entry "1983" "Lisa");
    ("Apple Watch", mk_entry "2015" "N/A") ].

(** A normalised directory followed by its separator: what [os.path.join]
    puts in front of a relative name. *)
Definition dir_prefix (d : string) : string :=
  if d =? "/" then "/" else d ++ "/".

(** A date that is the text of the first cell of some row of a table, and
    a record made from a table: the name and the colour of one row, the date
    of a first cell. *)
Definition cell_date (table : list tr) (date : string) : Prop :=
  exists row cell,
    In row table /\ tr_td row = Some cell /\ date = PyStr.rstrip (td_text cell).

Definition from_table (table : list tr) (kv : string * entry_details) : Prop :=
  exists row bgcolor text,
    In row table
    /\ tr_bgcolor row = Some bgcolor
    /\ tr_a row = Some text
    /\ fst kv = PyStr.rstrip text
    /\ category (snd kv) = color_code_lookup (normalized_bgcolor bgcolor)
    /\ cell_date table (release_date (snd kv)).

(** A product row that mirrors a record of the store: the record's name
    and date, and the id of the category row of the record's label. *)
Definition mirrors (cats : option (list category_row)) (data0 : store)
    (r : product_row) : Prop :=
  exists details rows c,
    dict_get (prod_name r) data0 = Some details
    /\ prod_release_date r = release_date details
    /\ cats = Some rows
    /\ In c rows
    /\ cat_category c = category details
    /\ prod_category r = cat_id c.

(** The test [INSERT OR IGNORE] makes on the category table. *)
Definition category_conflict (id : Z) (label : string) (rows : list category_row) : bool :=
  existsb (fun r => (cat_id r =? id)%Z || (cat_category r =? label)) rows.

(** ** The path of the database file *)

Module PosixNorm.

(** ['/'.join(comps)]. *)
Fixpoint sep_join (comps : list string) : string :=
  match comps with
  | [] => EmptyString
  | [comp] => comp
  | comp :: rest => comp ++ "/" ++ sep_join rest
  end.

Definition is_nil (comps : list string) : bool :=
  match comps with
  | [] => true
  | _ :: _ => false
  end.

(** The number [normpath] keeps of the leading slashes: two when there are
    exactly two, else one when there is any. *)
Definition initial_slashes (path : string) : nat :=
  if String.prefix "/" path
  then (if String.prefix "//" path && negb (String.prefix "///" path) then 2 else 1)
  else 0.

(** One turn of the loop of [normpath] over the components. *)
Definition normpath_step (slashes : nat) (new_comps : list string) (comp : string)
  : list string :=
  if (comp =? "") || (comp =? ".") then new_comps
  else if negb (comp =? "..")
          || ((slashes =? 0)%nat && is_nil new_comps)
          || (negb (is_nil new_comps) && (last new_comps "" =? ".."))
       then new_comps ++ [comp]
       else removelast new_comps.

Fixpoint slashes_string (n : nat) : string :=
  match n with
  | O => EmptyString
  | S k => String "/"%char (slashes_string k)
  end.

(** [os.path.normpath(path)]. *)
Definition normpath (path : string) : string :=
  if path =? "" then "."
  else
    let slashes := initial_slashes path in
    let comps := fold_left (normpath_step slashes) (split_slash path) [] in
    let joined := (slashes_string slashes ++ sep_join comps)%string in
    if joined =? "" then "." else joined.

End PosixNorm.

(** [os.path.abspath(path)]. *)
Definition abspath (proc : process) (path : string) : string :=
  PosixNorm.normpath
    (if PosixPath.is_absolute path then path else PosixPath.join (getcwd proc) path).

(** [open_database(db_name)]: the path handed to [sqlite3.connect]. *)
Definition open_database (proc : process) (db_name : string) : string :=
  let path := PosixPath.dirname (abspath proc (dunder_file proc)) in
  path ++ "/" ++ db_name.

(** A stand-in for the engine's random draw in the examples: the smallest
    positive id that is not in use. *)
Definition sample_random_rowid (rows : list product_row) : Z :=
  match find (fun n => negb (existsb (Z.eqb n) (map prod_id rows)))
             (map Z.of_nat (seq 1 (S (length rows)))) with
  | Some n => n
  | None => 1
  end.

(** A row that opens a span of five, for a table in which [respan_row]
    comes while that span is active. *)
Definition old_span_row : tr :=
  mk_tr (Some "81D666") (Some (mk_td (Some "5") "1983")) (Some "Lisa").

(** Tables on which a span does not give as many records as it counts: the
    covered row repeats the name of the first; the span of three starts
    after 24 records; the covered row declares a span of its own. *)
Definition span3_first : tr :=
  mk_tr (Some "#FFFF79") (Some (mk_td (Some "3") "1977 ")) (Some "Apple II").

Definition repeated_name_table : soup :=
  [ span_first;
    mk_tr (Some "FFFF79") (Some (mk_td None "Apple II Plus")) (Some "Apple II") ].

Definition capped_span_table : soup :=
  catalogue 24 ++ [span3_first; span_follower; span_after].

Definition respan_table : soup :=
  [span3_first; respan_row; span_after].

(** The span property read without conditions on names, on the limit of 25
    or on the cells of the covered rows: a first cell that declares a span
    of N, followed by N-1 rows that each have a first cell and a link, adds
    N records, all with the date of the declaring cell. *)
Definition rowspan_carry_as_stated : Prop :=
  forall doc data0 first cell attr followers,
    find_all_tr_bgcolor doc = first :: followers ->
    tr_td first = Some cell ->
    td_rowspan cell = Some attr ->
    PyStr.int attr = Some (Z.of_nat (S (length followers))) ->
    Forall (fun row => tr_a row <> None) (first :: followers) ->
    Forall (fun row => tr_td row <> None) followers ->
    exists added,
      fst (add_25_entries doc data0) = data0 ++ added
      /\ length added = S (length followers)
      /\ Forall (fun kv => release_date (snd kv) = PyStr.rstrip (td_text cell)) added.

(** * Properties *)

(** ** Strings *)

Lemma is_space_upper_char (c : ascii) :
  PyStr.is_space (PyStr.upper_char c) = PyStr.is_space c.
Proof. destruct c as [[] [] [] [] [] [] [] []]; reflexivity. Qed.

Lemma upper_rstrip (s : string) :
  PyStr.upper (PyStr.rstrip s) = PyStr.rstrip (PyStr.upper s).
Proof.
  induction s as [|c s IH]; simpl; [reflexivity|].
  rewrite <- IH.
  destruct (PyStr.rstrip s) as [|c' kept]; simpl.
  - rewrite is_space_upper_char. destruct (PyStr.is_space c); reflexivity.
  - reflexivity.
Qed.

Lemma eq_ignore_case_upper (s t : string) :
  eq_ignore_case s t = true -> PyStr.upper s = PyStr.upper t.
Proof.
  revert t; induction s as [|a s IH]; intros [|b t]; simpl; try discriminate.
  - reflexivity.
  - intros H. apply andb_true_iff in H as [Hc Hs].
    apply Ascii.eqb_eq in Hc. rewrite Hc, (IH _ Hs). reflexivity.
Qed.

(** ** The colour table *)

(** C4.  Each of the seven colour tokens of the table, written in any mix
    of upper and lower case and with or without the leading [#], is mapped
    to the token's category by the lookup the loop performs on the row
    attribute. *)
Theorem color_lookup_case_and_marker_insensitive :
  forall token label,
    In (token, label) color_table ->
    forall bgcolor,
      eq_ignore_case bgcolor token = true
      \/ eq_ignore_case bgcolor ("#" ++ token) = true ->
      color_code_lookup (normalized_bgcolor bgcolor) = label.
Proof.
  intros token label Hin bgcolor Hvariant.
  unfold normalized_bgcolor. rewrite upper_rstrip.
  simpl in Hin.
  repeat (destruct Hin as [Hin | Hin];
          [ inversion Hin; subst; clear Hin;
            destruct Hvariant as [Hv | Hv];
            apply eq_ignore_case_upper in Hv; rewrite Hv; reflexivity
          | ]).
  contradiction.
Qed.

Lemma color_lookup_case_and_marker_insensitive_witness :
  In ("FFFF79", "Apple 1/2/2GS/3") color_table
  /\ color_code_lookup (normalized_bgcolor "#ffFf79") = "Apple 1/2/2GS/3".
Proof.
  split.
  - simpl. left. reflexivity.
  - apply (color_lookup_case_and_marker_insensitive "FFFF79" "Apple 1/2/2GS/3").
    + simpl. left. reflexivity.
    + right. reflexivity.
Defined.

(** The three-digit shorthand is recognised only with its marker. *)
Example short_token_needs_marker :
  color_code_lookup (normalized_bgcolor "#cf9") = "Phones/Tablets/PDAs"
  /\ color_code_lookup (normalized_bgcolor "cf9") = "N/A".
Proof. split; reflexivity. Qed.

(** ** The store *)

Lemma dict_get_app (key : string) (d e : store) :
  dict_get key (d ++ e) =
  match dict_get key d with
  | Some v => Some v
  | None => dict_get key e
  end.
Proof.
  induction d as [|[k v] d IH]; simpl; [reflexivity|].
  destruct (k =? key); [reflexivity | exact IH].
Qed.

Lemma dict_set_absent (key : string) (value : entry_details) (d : store) :
  dict_get key d = None -> dict_set key value d = d ++ [(key, value)].
Proof.
  induction d as [|[k v] d IH]; simpl; [reflexivity|].
  destruct (k =? key); [discriminate|].
  intros H. rewrite (IH H). reflexivity.
Qed.

Lemma dict_get_absent_iff (key : string) (d : store) :
  dict_get key d = None <-> ~ In key (dict_keys d).
Proof.
  induction d as [|[k v] d IH]; simpl.
  - tauto.
  - destruct (String.eqb_spec k key) as [Heq | Hne].
    + split; [discriminate | intros H; exfalso; apply H; left; exact Heq].
    + rewrite IH. tauto.
Qed.

Lemma dict_get_some_in_keys (key : string) (d : store) :
  dict_get key d <> None -> In key (dict_keys d).
Proof.
  intros Hsome. destruct (in_dec string_dec key (dict_keys d)) as [Hin | Hnot];
    [exact Hin|].
  apply dict_get_absent_iff in Hnot. contradiction.
Qed.

Lemma dict_get_present (key : string) (d : store) :
  In key (dict_keys d) -> exists v, dict_get key d = Some v.
Proof.
  intros Hin. destruct (dict_get key d) as [v|] eqn:E.
  - exists v. reflexivity.
  - apply dict_get_absent_iff in E. contradiction.
Qed.

(** ** One iteration *)

(** What an iteration that completes does to the store and the counter:
    nothing, or exactly one record under a name the store did not have. *)
Lemma loop_body_store (row : tr) (st st' : loop_state) :
  loop_body row st = Return st' ->
  (data st' = data st /\ entries_added st' = entries_added st)
  \/ (exists name details,
        dict_get name (data st) = None
        /\ data st' = data st ++ [(name, details)]
        /\ entries_added st' = S (entries_added st)).
Proof.
  unfold loop_body.
  destruct (tr_bgcolor row) as [bg|]; simpl; [|discriminate].
  destruct (tr_td row) as [cell|]; [|intros H; inversion H; subst; left; split; reflexivity].
  destruct (read_rowspan cell st) as [[span span_date]|]; simpl; [|discriminate].
  destruct (make_entry cell (tr_a row) _ span span_date) as [[[name details] span']|];
    simpl; [|discriminate].
  destruct (dict_get name (data st)) eqn:Hget; intros H; inversion H; subst; simpl.
  - left. split; reflexivity.
  - right. exists name, details. rewrite (dict_set_absent _ _ _ Hget).
    split; [exact Hget | split; reflexivity].
Qed.

(** ** The loop *)

(** The store only grows at its end, by as many records as the counter
    counts, under new and pairwise different names; and the counter never
    passes 25. *)
Lemma for_rows_store (table_list : list tr) :
  forall st st' exc,
    for_rows table_list st = (st', exc) ->
    entries_added st < 25 ->
    exists added,
      data st' = data st ++ added
      /\ entries_added st' = entries_added st + length added
      /\ entries_added st' <= 25
      /\ NoDup (dict_keys added)
      /\ (forall name, In name (dict_keys added) -> dict_get name (data st) = None).
Proof.
  induction table_list as [|row rest IH]; intros st st' exc Hrun Hcap; cbn [for_rows] in Hrun.
  - inversion Hrun; subst. exists []. rewrite app_nil_r. simpl.
    repeat split; [lia | lia | constructor | intros ? []].
  - destruct (loop_body row st) as [st1|e] eqn:Hbody.
    + assert (Hstep := loop_body_store _ _ _ Hbody).
      destruct (25 <=? entries_added st1)%nat eqn:Hbreak.
      * inversion Hrun; subst.
        destruct Hstep as [[Hd Hn] | (name & details & Hnew & Hd & Hn)].
        -- exists []. rewrite app_nil_r. simpl.
           repeat split; [exact Hd | lia | lia | constructor | intros ? []].
        -- exists [(name, details)]. simpl.
           repeat split; [exact Hd | lia | lia | | ].
           ++ constructor; [intros [] | constructor].
           ++ intros k [Hk | []]. subst k. exact Hnew.
      * apply Nat.leb_gt in Hbreak.
        destruct (IH _ _ _ Hrun Hbreak) as (added & Hd' & Hn' & Hle & Hnodup & Hfresh).
        destruct Hstep as [[Hd Hn] | (name & details & Hnew & Hd & Hn)].
        -- exists added. rewrite Hd', Hd, Hn', Hn.
           repeat split; [lia | exact Hnodup | ].
           intros k Hk. rewrite <- Hd. apply Hfresh, Hk.
        -- exists ((name, details) :: added). rewrite Hd', Hd, Hn', Hn, <- app_assoc. simpl.
           repeat split; [lia | lia | | ].
           ++ constructor; [|exact Hnodup].
              intros Hin. apply Hfresh in Hin. rewrite Hd, dict_get_app, Hnew in Hin.
              simpl in Hin. rewrite String.eqb_refl in Hin. discriminate.
           ++ intros k [Hk | Hk].
              ** subst k. exact Hnew.
              ** apply Hfresh in Hk. rewrite Hd, dict_get_app in Hk.
                 destruct (dict_get k (data st)); [discriminate | reflexivity].
    + inversion Hrun; subst. exists []. rewrite app_nil_r. simpl.
      repeat split; [lia | lia | constructor | intros ? []].
Qed.

(** The same facts about a whole call. *)
Lemma add_25_entries_store (doc : soup) (data0 : store) :
  exists added,
    fst (add_25_entries doc data0) = data0 ++ added
    /\ length added <= 25
    /\ NoDup (dict_keys added)
    /\ (forall name, In name (dict_keys added) -> dict_get name data0 = None)
    /\ (snd (add_25_entries doc data0) = Return (length added)
        \/ exists e, snd (add_25_entries doc data0) = Raise e).
Proof.
  unfold add_25_entries, leave_loop.
  destruct (for_rows (find_all_tr_bgcolor doc) (initial_state data0)) as [st exc] eqn:Hrun.
  destruct (for_rows_store _ _ _ _ Hrun) as (added & Hd & Hn & Hle & Hnodup & Hfresh);
    [simpl; lia|].
  simpl in Hd, Hn, Hfresh. exists added. simpl.
  repeat split; [exact Hd | lia | exact Hnodup | exact Hfresh | ].
  destruct exc as [e|]; [right; exists e; reflexivity | left; rewrite Hn; reflexivity].
Qed.

(** C2.  A call adds at most 25 records, all at the end of the store, and
    what it returns is the number of records it added; a table with more
    than 25 eligible rows makes it add exactly 25. *)
Theorem add_25_entries_adds_at_most_25 :
  (forall doc data0,
      exists added,
        fst (add_25_entries doc data0) = data0 ++ added
        /\ length added <= 25
        /\ (snd (add_25_entries doc data0) = Return (length added)
            \/ exists e, snd (add_25_entries doc data0) = Raise e))
  /\ (length (find_all_tr_bgcolor (catalogue 40)) = 40
      /\ length (fst (add_25_entries (catalogue 40) [])) = 25
      /\ snd (add_25_entries (catalogue 40) []) = Return 25).
Proof.
  split.
  - intros doc data0.
    destruct (add_25_entries_store doc data0) as (added & Hd & Hle & _ & _ & Hret).
    exists added. repeat split; assumption.
  - repeat split; vm_compute; reflexivity.
Qed.

(** C3.  A name the store already has keeps its record through a call, and
    the call adds no second entry under that name: the old store is a
    prefix of the new one and none of the added names is the old name. *)
Theorem add_25_entries_keeps_existing :
  forall doc data0 name details,
    dict_get name data0 = Some details ->
    exists added,
      fst (add_25_entries doc data0) = data0 ++ added
      /\ ~ In name (dict_keys added)
      /\ dict_get name (fst (add_25_entries doc data0)) = Some details
      /\ count_occ string_dec (dict_keys (fst (add_25_entries doc data0))) name
         = count_occ string_dec (dict_keys data0) name.
Proof.
  intros doc data0 name details Hget.
  destruct (add_25_entries_store doc data0) as (added & Hd & _ & _ & Hfresh & _).
  assert (Hnot : ~ In name (dict_keys added)).
  { intros Hin. apply Hfresh in Hin. congruence. }
  exists added. rewrite Hd. repeat split.
  - exact Hnot.
  - rewrite dict_get_app, Hget. reflexivity.
  - unfold dict_keys in *. rewrite map_app, count_occ_app.
    rewrite (proj1 (count_occ_not_In string_dec _ _) Hnot). lia.
Qed.

Lemma add_25_entries_keeps_existing_witness :
  dict_get "Lisa" (fst (add_25_entries [lisa_row] [("Lisa", mk_entry "January 1983" "N/A")]))
  = Some (mk_entry "January 1983" "N/A").
Proof.
  destruct (add_25_entries_keeps_existing
              [lisa_row] [("Lisa", mk_entry "January 1983" "N/A")]
              "Lisa" (mk_entry "January 1983" "N/A") eq_refl)
    as (added & _ & _ & Hkept & _).
  exact Hkept.
Defined.

(** ** The span counter *)

(** A row whose first cell declares a span: the iteration does not read the
    counter or the carried date it finds. *)
Lemma loop_body_declaring (row : tr) (bgcolor : string) (cell : td)
    (attr : string) (n : Z) (text : string) (st : loop_state) :
  tr_bgcolor row = Some bgcolor ->
  tr_td row = Some cell ->
  td_rowspan cell = Some attr ->
  PyStr.int attr = Some n ->
  tr_a row = Some text ->
  loop_body row st =
  Return
    (let date := PyStr.rstrip (td_text cell) in
     let remaining := if (n =? 0)%Z then 0%Z else (n - 1)%Z in
     match dict_get (row_name row) (data st) with
     | None => mk_state remaining date (S (entries_added st))
                        (data st ++ [dated_record date row])
     | Some _ => mk_state remaining date (entries_added st) (data st)
     end).
Proof.
  intros Hbg Htd Hspan Hint Ha.
  unfold loop_body, read_rowspan, make_entry, dated_record, row_name, row_category.
  rewrite Hbg, Htd, Hspan, Hint, Ha. cbn [bind].
  destruct (Z.eqb_spec n 0) as [Hz | Hnz]; cbn [negb bind].
  - subst n. destruct (dict_get (PyStr.rstrip text) (data st)) eqn:Hget;
      [reflexivity | rewrite (dict_set_absent _ _ _ Hget); reflexivity].
  - destruct (dict_get (PyStr.rstrip text) (data st)) eqn:Hget;
      [reflexivity | rewrite (dict_set_absent _ _ _ Hget); reflexivity].
Qed.

(** A row whose first cell declares no span: the carried date while the
    counter is not zero, its own text otherwise. *)
Lemma loop_body_plain (row : tr) (bgcolor : string) (cell : td)
    (text : string) (st : loop_state) :
  tr_bgcolor row = Some bgcolor ->
  tr_td row = Some cell ->
  td_rowspan cell = None ->
  tr_a row = Some text ->
  loop_body row st =
  Return
    (let date := if (rowspan st =? 0)%Z then PyStr.rstrip (td_text cell)
                 else rowspan_date st in
     let remaining := if (rowspan st =? 0)%Z then 0%Z else (rowspan st - 1)%Z in
     match dict_get (row_name row) (data st) with
     | None => mk_state remaining (rowspan_date st) (S (entries_added st))
                        (data st ++ [dated_record date row])
     | Some _ => mk_state remaining (rowspan_date st) (entries_added st) (data st)
     end).
Proof.
  intros Hbg Htd Hspan Ha.
  unfold loop_body, read_rowspan, make_entry, dated_record, row_name, row_category.
  rewrite Hbg, Htd, Hspan, Ha. cbn [bind].
  destruct (Z.eqb_spec (rowspan st) 0) as [Hz | Hnz]; cbn [negb bind].
  - rewrite Hz. destruct (dict_get (PyStr.rstrip text) (data st)) eqn:Hget;
      [reflexivity | rewrite (dict_set_absent _ _ _ Hget); reflexivity].
  - destruct (dict_get (PyStr.rstrip text) (data st)) eqn:Hget;
      [reflexivity | rewrite (dict_set_absent _ _ _ Hget); reflexivity].
Qed.

(** ** Rows under a span *)

Lemma for_rows_cons (row : tr) (rest : list tr) (st : loop_state) :
  for_rows (row :: rest) st =
  match loop_body row st with
  | Return st' => continue_rows rest st'
  | Raise e => (st, Some e)
  end.
Proof. reflexivity. Qed.

(** Rows processed without leaving the loop can be split off. *)
Lemma for_rows_app (pre rest : list tr) :
  forall st st1,
    for_rows pre st = (st1, None) ->
    entries_added st1 < 25 ->
    for_rows (pre ++ rest) st = for_rows rest st1.
Proof.
  induction pre as [|row pre IH]; intros st st1 Hrun Hcap.
  - simpl in Hrun. inversion Hrun; subst. reflexivity.
  - rewrite <- app_comm_cons, for_rows_cons. rewrite for_rows_cons in Hrun.
    destruct (loop_body row st) as [st'|e]; [|discriminate].
    unfold continue_rows in *.
    destruct (25 <=? entries_added st')%nat eqn:Hbreak.
    + inversion Hrun; subst. apply Nat.leb_le in Hbreak. lia.
    + apply IH; assumption.
Qed.

Lemma selected_rows_have_bgcolor (doc : soup) :
  Forall (fun row => tr_bgcolor row <> None) (find_all_tr_bgcolor doc).
Proof.
  apply Forall_forall. intros row Hin.
  apply filter_In in Hin as [_ Hsel].
  destruct (tr_bgcolor row); [discriminate | discriminate Hsel].
Qed.

(** The rows a span covers: as many rows as the counter counts, each with a
    first cell of its own and a link, under new and different names, all
    receive the carried date, and the counter is back at zero after them. *)
Lemma continue_rows_under_span (carried : string) (rest : list tr) :
  forall followers st,
    rowspan st = Z.of_nat (length followers) ->
    rowspan_date st = carried ->
    Forall (fun row => tr_bgcolor row <> None) followers ->
    Forall plain_first_cell followers ->
    Forall (fun row => tr_a row <> None) followers ->
    NoDup (map row_name followers) ->
    Forall (fun row => dict_get (row_name row) (data st) = None) followers ->
    entries_added st + length followers <= 25 ->
    continue_rows (followers ++ rest) st =
    continue_rows rest
      (mk_state 0 carried (entries_added st + length followers)
                (data st ++ map (dated_record carried) followers)).
Proof.
  induction followers as [|row followers IH];
    intros st Hspan Hdate Hbg Hplain Hlink Hnodup Hfresh Hcap.
  - destruct st as [sp sd n d]; simpl in *. subst sp sd.
    rewrite Nat.add_0_r, app_nil_r. reflexivity.
  - apply Forall_cons_iff in Hbg as [Hbg1 Hbg'].
    apply Forall_cons_iff in Hplain as [(cell & Htd & Hnospan) Hplain'].
    apply Forall_cons_iff in Hlink as [Hlink1 Hlink'].
    cbn [map] in Hnodup. apply NoDup_cons_iff in Hnodup as [Hnotin Hnodup'].
    apply Forall_cons_iff in Hfresh as [Hfresh1 Hfresh'].
    destruct (tr_bgcolor row) as [bg|] eqn:Ebg; [|contradiction].
    destruct (tr_a row) as [text|] eqn:Ea; [|contradiction].
    simpl length in *.
    unfold continue_rows at 1.
    replace (25 <=? entries_added st)%nat with false
      by (symmetry; apply Nat.leb_gt; lia).
    rewrite <- app_comm_cons, for_rows_cons.
    rewrite (loop_body_plain row bg cell text st Ebg Htd Hnospan Ea).
    replace (rowspan st =? 0)%Z with false by (symmetry; apply Z.eqb_neq; lia).
    cbv zeta. rewrite Hfresh1, Hdate.
    rewrite IH; cbn [rowspan rowspan_date entries_added data];
      try assumption; try reflexivity; try lia.
    + f_equal. f_equal; [lia|].
      rewrite <- app_assoc. reflexivity.
    + apply Forall_forall. intros r Hr.
      rewrite dict_get_app.
      rewrite (proj1 (Forall_forall _ _) Hfresh' r Hr).
      unfold dated_record. cbn [dict_get].
      destruct (String.eqb_spec (row_name row) (row_name r)) as [Heq | Hne];
        [|reflexivity].
      exfalso. apply Hnotin. rewrite Heq. apply in_map. exact Hr.
Qed.

(** C1, as amended.  A row whose first cell declares a span of N, followed
    by the N-1 rows the span covers, each with a link and a first cell that
    declares no span of its own, yields N records that all carry the date of
    the declaring cell, its text with trailing white space removed, provided
    the names of the N rows are pairwise different and new to the store and
    the call has room for N more records under its limit of 25.  After these
    rows the counter is zero and the next row is dated by its own first
    cell.  Without these conditions the property fails. *)
Theorem add_25_entries_rowspan_carry :
  forall doc data0 pre first cell attr followers rest st1,
    find_all_tr_bgcolor doc = pre ++ first :: followers ++ rest ->
    for_rows pre (initial_state data0) = (st1, None) ->
    tr_td first = Some cell ->
    td_rowspan cell = Some attr ->
    PyStr.int attr = Some (Z.of_nat (S (length followers))) ->
    Forall plain_first_cell followers ->
    Forall (fun row => tr_a row <> None) (first :: followers) ->
    NoDup (map row_name (first :: followers)) ->
    Forall (fun row => dict_get (row_name row) (data st1) = None) (first :: followers) ->
    entries_added st1 + S (length followers) <= 25 ->
    let carried := PyStr.rstrip (td_text cell) in
    let st2 :=
      mk_state 0 carried (entries_added st1 + S (length followers))
               (data st1 ++ map (dated_record carried) (first :: followers)) in
    for_rows (pre ++ first :: followers) (initial_state data0) = (st2, None)
    /\ add_25_entries doc data0 = leave_loop (continue_rows rest st2)
    /\ (forall next bgcolor own text,
          tr_bgcolor next = Some bgcolor ->
          tr_td next = Some own ->
          td_rowspan own = None ->
          tr_a next = Some text ->
          loop_body next st2 =
          Return
            match dict_get (row_name next) (data st2) with
            | None =>
                mk_state 0 carried (S (entries_added st2))
                         (data st2 ++ [dated_record (PyStr.rstrip (td_text own)) next])
            | Some _ => st2
            end).
Proof.
  intros doc data0 pre first cell attr followers rest st1
         Hsel Hpre Htd Hattr Hint Hplain Hlink Hnodup Hfresh Hcap carried st2.
  assert (Hbg : Forall (fun row => tr_bgcolor row <> None) (first :: followers)).
  { pose proof (selected_rows_have_bgcolor doc) as Hall. rewrite Hsel in Hall.
    apply Forall_app in Hall as [_ Hall].
    rewrite app_comm_cons in Hall. apply Forall_app in Hall as [Hall _]. exact Hall. }
  apply Forall_cons_iff in Hbg as [Hbg1 Hbg'].
  apply Forall_cons_iff in Hlink as [Hlink1 Hlink'].
  cbn [map] in Hnodup. apply NoDup_cons_iff in Hnodup as [Hnotin Hnodup'].
  apply Forall_cons_iff in Hfresh as [Hfresh1 Hfresh'].
  destruct (tr_bgcolor first) as [bg|] eqn:Ebg; [|contradiction].
  destruct (tr_a first) as [text|] eqn:Ea; [|contradiction].
  assert (Hspan : forall tail,
             for_rows (pre ++ first :: followers ++ tail) (initial_state data0)
             = continue_rows tail st2).
  { intros tail.
    rewrite (for_rows_app pre (first :: followers ++ tail) _ _ Hpre) by lia.
    rewrite for_rows_cons.
    rewrite (loop_body_declaring first bg cell attr _ text st1 Ebg Htd Hattr Hint Ea).
    replace (Z.of_nat (S (length followers)) =? 0)%Z with false
      by (symmetry; apply Z.eqb_neq; lia).
    cbv zeta. rewrite Hfresh1.
    rewrite (continue_rows_under_span carried tail followers);
      cbn [rowspan rowspan_date entries_added data];
      try assumption; try reflexivity; try lia.
    - unfold st2. f_equal. f_equal; [simpl; lia|].
      rewrite <- app_assoc. reflexivity.
    - apply Forall_forall. intros r Hr.
      rewrite dict_get_app.
      rewrite (proj1 (Forall_forall _ _) Hfresh' r Hr).
      unfold dated_record. cbn [dict_get].
      destruct (String.eqb_spec (row_name first) (row_name r)) as [Heq | Hne];
        [|reflexivity].
      exfalso. apply Hnotin. rewrite Heq. apply in_map. exact Hr. }
  split; [|split].
  - specialize (Hspan []). rewrite app_nil_r in Hspan. rewrite Hspan.
    unfold continue_rows. destruct (25 <=? entries_added st2)%nat; reflexivity.
  - unfold add_25_entries. rewrite Hsel, Hspan. reflexivity.
  - intros next bgcolor own txt Hnbg Hntd Hnspan Hna.
    rewrite (loop_body_plain next bgcolor own txt st2 Hnbg Hntd Hnspan Hna).
    cbn [rowspan rowspan_date st2 Z.eqb]. cbv zeta.
    destruct (dict_get (row_name next) (data st2)); reflexivity.
Qed.

Lemma add_25_entries_rowspan_carry_witness :
  add_25_entries span_table [] =
  ([ ("Apple II", mk_entry "1977" "Apple 1/2/2GS/3");
     ("Disk II", mk_entry "1977" "Computer Peripherals");
     ("Lisa", mk_entry "1983" "Lisa") ],
   Return 3).
Proof.
  assert (Hplain : Forall plain_first_cell [span_follower]).
  { constructor; [|constructor].
    exists (mk_td None "Disk II"). split; reflexivity. }
  assert (Hlink : Forall (fun row => tr_a row <> None) [span_first; span_follower]).
  { repeat constructor; discriminate. }
  assert (Hnodup : NoDup (map row_name [span_first; span_follower])).
  { constructor; [|constructor; [|constructor]].
    - simpl. intros [H | []]. discriminate H.
    - intros []. }
  assert (Hfresh : Forall (fun row => dict_get (row_name row) (data (initial_state [])) = None)
                          [span_first; span_follower]).
  { repeat constructor. }
  assert (Hcap : entries_added (initial_state []) + S (length [span_follower]) <= 25).
  { simpl. lia. }
  destruct (add_25_entries_rowspan_carry
              span_table [] [] span_first (mk_td (Some "2") "1977 ") "2"
              [span_follower] [span_after] (initial_state [])
              eq_refl eq_refl eq_refl eq_refl eq_refl
              Hplain Hlink Hnodup Hfresh Hcap) as (_ & Hcall & _).
  exact Hcall.
Defined.

(** Where the span property needs its conditions.  Read without them it
    fails: a covered row that repeats the name of the first row adds
    nothing; so does a covered row whose name the store already has; a span
    that starts after 24 records is cut by the limit of 25; and a covered
    row that declares a span of its own changes the date of the rows after
    it. *)
Lemma rowspan_carry_as_stated_fails :
  ~ rowspan_carry_as_stated
  /\ add_25_entries repeated_name_table []
     = ([("Apple II", mk_entry "1977" "Apple 1/2/2GS/3")], Return 1)
  /\ add_25_entries [span_first; span_follower] [("Disk II", mk_entry "1978" "N/A")]
     = ([ ("Disk II", mk_entry "1978" "N/A");
          ("Apple II", mk_entry "1977" "Apple 1/2/2GS/3") ],
        Return 1)
  /\ (snd (add_25_entries capped_span_table []) = Return 25
      /\ dict_get "Apple II" (fst (add_25_entries capped_span_table []))
         = Some (mk_entry "1977" "Apple 1/2/2GS/3")
      /\ dict_get "Disk II" (fst (add_25_entries capped_span_table [])) = None
      /\ dict_get "Lisa" (fst (add_25_entries capped_span_table [])) = None)
  /\ add_25_entries respan_table []
     = ([ ("Apple II", mk_entry "1977" "Apple 1/2/2GS/3");
          ("Macintosh 128K", mk_entry "1984" "Macintosh");
          ("Lisa", mk_entry "1984" "Lisa") ],
        Return 3).
Proof.
  split; [|repeat split; vm_compute; reflexivity].
  intros Hclaim.
  destruct (Hclaim repeated_name_table [] span_first (mk_td (Some "2") "1977 ") "2"
              [mk_tr (Some "FFFF79") (Some (mk_td None "Apple II Plus")) (Some "Apple II")]
              eq_refl eq_refl eq_refl eq_refl)
    as (added & Hstore & Hlength & _).
  - repeat constructor; discriminate.
  - repeat constructor; discriminate.
  - vm_compute in Hstore. subst added. discriminate Hlength.
Qed.

(** C9.  A row that declares a span while an earlier span is still active
    starts its own span in the call: from that row on the call runs as it
    would have run had no span been active.  After the row the counter is
    the new count less the row itself and the carried date is the row's own
    first-cell text; the row's record has that date, and so has the next
    row while the new count lasts.  Nothing of the old span is kept. *)
Theorem rowspan_redeclared_replaces_span :
  forall doc data0 pre row rest st1 cell attr n text,
    find_all_tr_bgcolor doc = pre ++ row :: rest ->
    for_rows pre (initial_state data0) = (st1, None) ->
    entries_added st1 < 25 ->
    rowspan st1 <> 0%Z ->
    tr_td row = Some cell ->
    td_rowspan cell = Some attr ->
    PyStr.int attr = Some n ->
    tr_a row = Some text ->
    let date := PyStr.rstrip (td_text cell) in
    let remaining := if (n =? 0)%Z then 0%Z else (n - 1)%Z in
    let st2 :=
      match dict_get (row_name row) (data st1) with
      | None => mk_state remaining date (S (entries_added st1))
                         (data st1 ++ [dated_record date row])
      | Some _ => mk_state remaining date (entries_added st1) (data st1)
      end in
    add_25_entries doc data0 = leave_loop (continue_rows rest st2)
    /\ add_25_entries doc data0
       = leave_loop (for_rows (row :: rest)
                              (mk_state 0 "" (entries_added st1) (data st1)))
    /\ (forall next bgcolor own txt,
          tr_bgcolor next = Some bgcolor ->
          tr_td next = Some own ->
          td_rowspan own = None ->
          tr_a next = Some txt ->
          loop_body next st2 =
          Return
            (let next_date := if (remaining =? 0)%Z
                              then PyStr.rstrip (td_text own) else date in
             let left := if (remaining =? 0)%Z then 0%Z else (remaining - 1)%Z in
             match dict_get (row_name next) (data st2) with
             | None => mk_state left date (S (entries_added st2))
                                (data st2 ++ [dated_record next_date next])
             | Some _ => mk_state left date (entries_added st2) (data st2)
             end)).
Proof.
  intros doc data0 pre row rest st1 cell attr n text
         Hsel Hpre Hcap Hactive Htd Hattr Hint Ha date remaining st2.
  assert (Hbg : tr_bgcolor row <> None).
  { pose proof (selected_rows_have_bgcolor doc) as Hall. rewrite Hsel in Hall.
    apply Forall_app in Hall as [_ Hall].
    apply Forall_cons_iff in Hall as [Hrow _]. exact Hrow. }
  destruct (tr_bgcolor row) as [bg|] eqn:Ebg; [clear Hbg | contradiction].
  assert (Hcall : add_25_entries doc data0 = leave_loop (continue_rows rest st2)).
  { unfold add_25_entries.
    rewrite Hsel, (for_rows_app pre (row :: rest) _ _ Hpre Hcap), for_rows_cons.
    rewrite (loop_body_declaring row bg cell attr n text st1 Ebg Htd Hattr Hint Ha).
    reflexivity. }
  split; [exact Hcall | split].
  - rewrite Hcall, for_rows_cons.
    rewrite (loop_body_declaring row bg cell attr n text
               (mk_state 0 "" (entries_added st1) (data st1)) Ebg Htd Hattr Hint Ha).
    reflexivity.
  - intros next bgcolor own txt Hnbg Hntd Hnspan Hna.
    rewrite (loop_body_plain next bgcolor own txt st2 Hnbg Hntd Hnspan Hna).
    unfold st2. destruct (dict_get (row_name row) (data st1)); reflexivity.
Qed.

Lemma rowspan_redeclared_replaces_span_witness :
  add_25_entries [old_span_row; respan_row; span_follower] []
  = ([ ("Lisa", mk_entry "1983" "Lisa");
       ("Macintosh 128K", mk_entry "1984" "Macintosh");
       ("Disk II", mk_entry "1984" "Computer Peripherals") ],
     Return 3).
Proof.
  assert (Hcap : entries_added (mk_state 4 "1983" 1 [("Lisa", mk_entry "1983" "Lisa")]) < 25)
    by (simpl; lia).
  assert (Hactive : rowspan (mk_state 4 "1983" 1 [("Lisa", mk_entry "1983" "Lisa")]) <> 0%Z)
    by (simpl; discriminate).
  destruct (rowspan_redeclared_replaces_span
              [old_span_row; respan_row; span_follower] []
              [old_span_row] respan_row [span_follower]
              (mk_state 4 "1983" 1 [("Lisa", mk_entry "1983" "Lisa")])
              (mk_td (Some " 3") "1984 ") " 3" 3 "Macintosh 128K"
              eq_refl eq_refl Hcap Hactive eq_refl eq_refl eq_refl eq_refl)
    as (Hcall & _ & _).
  exact Hcall.
Defined.

(** ** The JSON file *)

(** C8.  When the file [load_JSON] opens is missing, or its text is not
    accepted by [json.load], the call raises nothing and returns the empty
    dictionary. *)
Theorem load_JSON_recovers_with_empty_store :
  forall json_load proc fs filename,
    (fs (resolve proc (load_path proc filename)) = None
     \/ exists contents e,
          fs (resolve proc (load_path proc filename)) = Some contents
          /\ json_load contents = Raise e) ->
    load_JSON json_load proc fs filename = Return [].
Proof.
  intros json_load proc fs filename Hbad.
  unfold load_JSON, open_read.
  destruct Hbad as [Hmissing | (contents & e & Hfile & Hjson)].
  - rewrite Hmissing. reflexivity.
  - rewrite Hfile. cbn [bind]. rewrite Hjson. reflexivity.
Qed.

Lemma load_JSON_recovers_with_empty_store_witness :
  load_JSON sample_json_load sample_process empty_disk "apple_products.json" = Return []
  /\ load_JSON sample_json_load sample_process corrupt_disk "apple_products.json" = Return [].
Proof.
  split.
  - apply load_JSON_recovers_with_empty_store. left. reflexivity.
  - apply load_JSON_recovers_with_empty_store. right.
    exists "{ 'Lisa': ", JSONDecodeError. split; reflexivity.
Defined.

(** ** The end-to-end example *)

(** C7.  The row with colour [81D666], first cell [1983] and link [Lisa],
    normalised into an empty store, gives the record
    [Lisa -> {1983, Lisa}]; the mirror of that store in a new database has
    the category row [(1, Lisa)] and the single product row
    [(1, Lisa, 1983, 1)]; and a whole run on a disk without files does both
    and then writes the store. *)
Theorem lisa_end_to_end :
  add_25_entries [lisa_row] [] = ([("Lisa", mk_entry "1983" "Lisa")], Return 1)
  /\ SQL_create_categories (mk_database None None)
     = mk_database (Some seeded_categories) None
  /\ In (mk_category_row 1 "Lisa") seeded_categories
  /\ (forall random_rowid,
        SQL_update_database random_rowid (SQL_create_categories (mk_database None None))
                            [("Lisa", mk_entry "1983" "Lisa")]
        = (mk_database (Some seeded_categories)
                       (Some [mk_product_row 1 "Lisa" "1983" 1]),
           Return tt))
  /\ (forall json_load json_dump random_rowid proc,
        main json_load json_dump random_rowid proc empty_disk
             (mk_database None None) [lisa_row]
        = (write_JSON json_dump proc empty_disk "apple_products.json"
                      [("Lisa", mk_entry "1983" "Lisa")],
           mk_database (Some seeded_categories)
                       (Some [mk_product_row 1 "Lisa" "1983" 1]),
           Return tt)).
Proof.
  split; [reflexivity|].
  split; [reflexivity|].
  split; [simpl; tauto|].
  split; [intros random_rowid; reflexivity|].
  intros json_load json_dump random_rowid proc. reflexivity.
Qed.

(** ** The product table *)

Lemma name_taken_app (name : string) (rows more : list product_row) :
  existsb (fun r => prod_name r =? name) (rows ++ more)
  = existsb (fun r => prod_name r =? name) rows
    || existsb (fun r => prod_name r =? name) more.
Proof. apply existsb_app. Qed.

Lemma name_taken_iff (name : string) (rows : list product_row) :
  existsb (fun r => prod_name r =? name) rows = true
  <-> In name (map prod_name rows).
Proof.
  rewrite existsb_exists, in_map_iff. split.
  - intros (r & Hin & Heq). apply String.eqb_eq in Heq. exists r. split; assumption.
  - intros (r & Heq & Hin). exists r. split; [exact Hin | apply String.eqb_eq, Heq].
Qed.

Lemma NoDup_snoc {A : Type} (l : list A) (a : A) :
  NoDup l -> ~ In a l -> NoDup (l ++ [a]).
Proof.
  induction l as [|b l IH]; simpl; intros Hl Ha.
  - constructor; [intros [] | constructor].
  - apply NoDup_cons_iff in Hl as [Hb Hl]. constructor.
    + rewrite in_app_iff. simpl. intros [Hin | [Heq | []]]; [tauto|].
      apply Ha. left. symmetry. exact Heq.
    + apply IH; [exact Hl | tauto].
Qed.

(** An insertion appends at most one row, under the inserted name, and only
    when the name is free. *)
Lemma insert_or_ignore_product_shape (random_rowid : list product_row -> Z)
    (name date : string) (id : Z)
    (rows : list product_row) :
  (existsb (fun r => prod_name r =? name) rows = true
   /\ insert_or_ignore_product random_rowid name date id rows = rows)
  \/ (existsb (fun r => prod_name r =? name) rows = false
      /\ insert_or_ignore_product random_rowid name date id rows
         = rows ++ [mk_product_row (next_rowid random_rowid rows) name date id]).
Proof.
  unfold insert_or_ignore_product.
  destruct (existsb (fun r => prod_name r =? name) rows); [left | right];
    split; reflexivity.
Qed.

Lemma insert_or_ignore_product_spec (random_rowid : list product_row -> Z)
    (name date : string) (id : Z)
    (rows : list product_row) :
  exists new,
    insert_or_ignore_product random_rowid name date id rows = rows ++ new
    /\ existsb (fun r => prod_name r =? name) (rows ++ new) = true
    /\ (NoDup (map prod_name rows) -> NoDup (map prod_name (rows ++ new))).
Proof.
  destruct (insert_or_ignore_product_shape random_rowid name date id rows)
    as [[Htaken Heq] | [Hfree Heq]].
  - exists []. rewrite app_nil_r. split; [exact Heq | split; [exact Htaken | tauto]].
  - exists [mk_product_row (next_rowid random_rowid rows) name date id].
    split; [exact Heq | split].
    + rewrite name_taken_app. simpl. rewrite String.eqb_refl.
      rewrite orb_true_r. reflexivity.
    + intros Hnodup. rewrite map_app. simpl.
      apply NoDup_snoc; [exact Hnodup|].
      intros Hin. apply name_taken_iff in Hin. congruence.
Qed.

Lemma update_products_runs (random_rowid : list product_row -> Z)
    (cats : option (list category_row)) (data0 : store) :
  forall keys rows,
    (forall key, In key keys -> resolves cats data0 key) ->
    exists new,
      update_products random_rowid cats data0 keys rows = Return (rows ++ new)
      /\ (forall key, In key keys ->
            existsb (fun r => prod_name r =? key) (rows ++ new) = true)
      /\ (NoDup (map prod_name rows) -> NoDup (map prod_name (rows ++ new))).
Proof.
  induction keys as [|key keys IH]; intros rows Hres.
  - exists []. rewrite app_nil_r. simpl. repeat split; [intros ? [] | tauto].
  - destruct (Hres key (or_introl eq_refl)) as (details & id & Hget & Hsel).
    cbn [update_products]. unfold dict_getitem. rewrite Hget. cbn [bind].
    rewrite Hsel. cbn [bind].
    destruct (insert_or_ignore_product_spec random_rowid key (release_date details) id rows)
      as (new1 & Hins & Htaken & Hnodup1).
    rewrite Hins.
    destruct (IH (rows ++ new1) (fun k Hk => Hres k (or_intror Hk)))
      as (new2 & Hrun & Hkeys & Hnodup2).
    exists (new1 ++ new2). rewrite app_assoc. split; [exact Hrun | split].
    + intros k [Hk | Hk].
      * subst k. rewrite name_taken_app, Htaken. reflexivity.
      * apply Hkeys, Hk.
    + intros Hnodup. apply Hnodup2, Hnodup1, Hnodup.
Qed.

Lemma update_products_again (random_rowid : list product_row -> Z)
    (cats : option (list category_row)) (data0 : store)
    (rows : list product_row) :
  forall keys,
    (forall key, In key keys -> resolves cats data0 key) ->
    (forall key, In key keys -> existsb (fun r => prod_name r =? key) rows = true) ->
    update_products random_rowid cats data0 keys rows = Return rows.
Proof.
  induction keys as [|key keys IH]; intros Hres Htaken; [reflexivity|].
  destruct (Hres key (or_introl eq_refl)) as (details & id & Hget & Hsel).
  cbn [update_products]. unfold dict_getitem. rewrite Hget. cbn [bind].
  rewrite Hsel. cbn [bind].
  unfold insert_or_ignore_product. rewrite (Htaken key (or_introl eq_refl)).
  apply IH; intros k Hk; [apply Hres | apply Htaken]; right; exact Hk.
Qed.

Lemma rows_named_absent (name : string) (rows : list product_row) :
  ~ In name (map prod_name rows) -> rows_named name rows = [].
Proof.
  induction rows as [|r rows IH]; simpl; intros Hnot; [reflexivity|].
  destruct (String.eqb_spec (prod_name r) name) as [Heq | Hne].
  - exfalso. apply Hnot. left. exact Heq.
  - apply IH. intros Hin. apply Hnot. right. exact Hin.
Qed.

Lemma one_row_per_name (name : string) (rows : list product_row) :
  NoDup (map prod_name rows) ->
  existsb (fun r => prod_name r =? name) rows = true ->
  length (rows_named name rows) = 1.
Proof.
  induction rows as [|r rows IH]; simpl; intros Hnodup Htaken; [discriminate|].
  apply NoDup_cons_iff in Hnodup as [Hnotin Hnodup].
  destruct (String.eqb_spec (prod_name r) name) as [Heq | Hne].
  - simpl. rewrite rows_named_absent; [reflexivity|]. rewrite <- Heq. exact Hnotin.
  - simpl in Htaken. apply IH; assumption.
Qed.

(** C6.  When every record of the store has its category in the category
    table, a run of the mirror succeeds, keeps the rows the product table
    had, in place and unchanged, and leaves exactly one row for each name of
    the store; a second run on the same store changes nothing. *)
Theorem SQL_update_database_idempotent :
  forall random_rowid db data0,
    (forall name details,
        dict_get name data0 = Some details ->
        exists id,
          select_category_id (Apple_Categories db) (category details) = Return id) ->
    NoDup (map prod_name (create_table_if_not_exists (Apple_Products db))) ->
    exists rows1,
      let db1 := mk_database (Apple_Categories db) (Some rows1) in
      SQL_update_database random_rowid db data0 = (db1, Return tt)
      /\ SQL_update_database random_rowid db1 data0 = (db1, Return tt)
      /\ (exists new, rows1 = create_table_if_not_exists (Apple_Products db) ++ new)
      /\ NoDup (map prod_name rows1)
      /\ (forall name, In name (dict_keys data0) -> length (rows_named name rows1) = 1).
Proof.
  intros random_rowid db data0 Hcats Hunique.
  assert (Hres : forall key, In key (dict_keys data0) ->
                             resolves (Apple_Categories db) data0 key).
  { intros key Hin. destruct (dict_get_present _ _ Hin) as [details Hget].
    destruct (Hcats _ _ Hget) as [id Hsel]. exists details, id. split; assumption. }
  destruct (update_products_runs random_rowid (Apple_Categories db) data0
              (dict_keys data0)
              (create_table_if_not_exists (Apple_Products db)) Hres)
    as (new & Hrun & Htaken & Hnodup).
  exists (create_table_if_not_exists (Apple_Products db) ++ new).
  cbv zeta. unfold SQL_update_database.
  cbn [Apple_Categories Apple_Products create_table_if_not_exists].
  rewrite Hrun, (update_products_again random_rowid _ _ _ _ Hres Htaken).
  repeat split.
  - exists new. reflexivity.
  - apply Hnodup, Hunique.
  - intros name Hin. apply one_row_per_name; [apply Hnodup, Hunique | apply Htaken, Hin].
Qed.

Lemma SQL_update_database_idempotent_witness :
  exists rows1,
    SQL_update_database sample_random_rowid (mk_database (Some seeded_categories) None)
                        [("Lisa", mk_entry "1983" "Lisa")]
    = (mk_database (Some seeded_categories) (Some rows1), Return tt)
    /\ SQL_update_database sample_random_rowid (mk_database (Some seeded_categories) (Some rows1))
                           [("Lisa", mk_entry "1983" "Lisa")]
       = (mk_database (Some seeded_categories) (Some rows1), Return tt).
Proof.
  destruct (SQL_update_database_idempotent sample_random_rowid
              (mk_database (Some seeded_categories) None)
              [("Lisa", mk_entry "1983" "Lisa")]) as (rows1 & Honce & Htwice & _).
  - intros name details Hget. cbn [dict_get] in Hget.
    destruct ("Lisa" =? name); [|discriminate Hget].
    injection Hget as Hdetails. rewrite <- Hdetails. exists 1%Z. reflexivity.
  - simpl. constructor.
  - exists rows1. split; assumption.
Defined.

(** ** Unknown colours *)

Lemma color_code_lookup_unknown (color_code : string) :
  ~ In color_code known_color_codes -> color_code_lookup color_code = "N/A".
Proof.
  intros Hunknown. unfold color_code_lookup.
  repeat
    match goal with
    | |- context [String.eqb color_code ?literal] =>
        destruct (String.eqb_spec color_code literal) as [Heq | _];
        [ exfalso; apply Hunknown; rewrite Heq; simpl; tauto | ]
    end.
  reflexivity.
Qed.

Lemma select_category_id_no_row (rows : list category_row) (label : string) :
  (forall r, In r rows -> cat_category r <> label) ->
  select_category_id (Some rows) label = Raise TypeError.
Proof.
  intros Hnone. unfold select_category_id.
  destruct (find (fun r => cat_category r =? label) rows) as [r|] eqn:Hfind;
    [|reflexivity].
  apply find_some in Hfind as [Hin Heq]. apply String.eqb_eq in Heq.
  exfalso. exact (Hnone r Hin Heq).
Qed.

Lemma update_products_unresolved (random_rowid : list product_row -> Z)
    (rows : list category_row) (data0 : store)
    (name : string) (details : entry_details) :
  dict_get name data0 = Some details ->
  (forall r, In r rows -> cat_category r <> category details) ->
  forall keys products,
    (forall key, In key keys -> In key (dict_keys data0)) ->
    In name keys ->
    update_products random_rowid (Some rows) data0 keys products = Raise TypeError.
Proof.
  intros Hget Hnone.
  induction keys as [|key keys IH]; intros products Hkeys Hin; [destruct Hin|].
  destruct (dict_get_present key data0 (Hkeys key (or_introl eq_refl))) as [d Hd].
  cbn [update_products]. unfold dict_getitem. rewrite Hd. cbn [bind].
  destruct (select_category_id (Some rows) (category d)) as [id|e] eqn:Hsel; cbn [bind].
  - destruct (string_dec key name) as [Heq | Hne].
    + subst key. rewrite Hget in Hd. injection Hd as Hd. subst d.
      rewrite (select_category_id_no_row rows _ Hnone) in Hsel. discriminate Hsel.
    + apply IH.
      * intros k Hk. apply Hkeys. right. exact Hk.
      * destruct Hin as [Heq | Hin]; [contradiction | exact Hin].
  - unfold select_category_id in Hsel.
    destruct (find (fun r => cat_category r =? category d) rows);
      [discriminate Hsel | injection Hsel as Hsel; rewrite <- Hsel; reflexivity].
Qed.

(** C5.  A colour code that is none of the literals of the table is mapped
    to the label [N/A], without an error.  A record whose label has no row
    in [Apple_Categories] makes the lookup of its [category_id] raise
    ([fetchone()] gives [None]), [SQL_update_database] raises with it
    before anything is committed to the product table, and [main], which
    catches nothing, ends with that exception. *)
Theorem unknown_color_sentinel_then_fatal_lookup :
  (forall color_code,
      ~ In color_code known_color_codes ->
      color_code_lookup color_code = "N/A")
  /\ (forall random_rowid db rows data0 name details,
        Apple_Categories db = Some rows ->
        dict_get name data0 = Some details ->
        (forall r, In r rows -> cat_category r <> category details) ->
        select_category_id (Apple_Categories db) (category details) = Raise TypeError
        /\ SQL_update_database random_rowid db data0
           = (mk_database (Some rows)
                          (Some (create_table_if_not_exists (Apple_Products db))),
              Raise TypeError))
  /\ (forall json_load json_dump random_rowid proc fs db doc fs1 data1 rows name details,
        add_entries_to_JSON json_load json_dump proc fs doc = (fs1, Return data1) ->
        Apple_Categories (SQL_create_categories db) = Some rows ->
        dict_get name data1 = Some details ->
        (forall r, In r rows -> cat_category r <> category details) ->
        snd (main json_load json_dump random_rowid proc fs db doc) = Raise TypeError).
Proof.
  assert (Hupdate : forall random_rowid db rows data0 name details,
             Apple_Categories db = Some rows ->
             dict_get name data0 = Some details ->
             (forall r, In r rows -> cat_category r <> category details) ->
             SQL_update_database random_rowid db data0
             = (mk_database (Some rows)
                            (Some (create_table_if_not_exists (Apple_Products db))),
                Raise TypeError)).
  { intros random_rowid db rows data0 name details Hcats Hget Hnone.
    unfold SQL_update_database. rewrite Hcats.
    rewrite (update_products_unresolved random_rowid rows data0 name details Hget Hnone);
      [reflexivity | tauto | ].
    apply dict_get_some_in_keys. congruence. }
  split; [exact color_code_lookup_unknown | split].
  - intros random_rowid db rows data0 name details Hcats Hget Hnone. split.
    + rewrite Hcats. apply select_category_id_no_row, Hnone.
    + exact (Hupdate random_rowid db rows data0 name details Hcats Hget Hnone).
  - intros json_load json_dump random_rowid proc fs db doc fs1 data1 rows name details
           Hjson Hcats Hget Hnone.
    unfold main. rewrite Hjson.
    rewrite (Hupdate random_rowid _ rows data1 name details Hcats Hget Hnone).
    reflexivity.
Qed.

Lemma unknown_color_sentinel_then_fatal_lookup_witness :
  color_code_lookup "E0E0E0" = "N/A"
  /\ SQL_update_database sample_random_rowid (mk_database (Some seeded_categories) None) stale_store
     = (mk_database (Some seeded_categories) (Some []), Raise TypeError).
Proof.
  destruct unknown_color_sentinel_then_fatal_lookup as (Hsentinel & Hfatal & _).
  split.
  - apply Hsentinel. simpl. intros H.
    repeat (destruct H as [H | H]; [discriminate H|]). exact H.
  - destruct (Hfatal sample_random_rowid
                     (mk_database (Some seeded_categories) None) seeded_categories
                     stale_store "Apple Watch" (mk_entry "2015" "N/A")
                     eq_refl eq_refl) as [_ Hupdate].
    + intros r Hin. simpl in Hin.
      repeat (destruct Hin as [Hin | Hin]; [rewrite <- Hin; discriminate|]).
      destruct Hin.
    + exact Hupdate.
Defined.

(** ** Paths *)

Lemma string_app_assoc (a b c : string) :
  ((a ++ b) ++ c = a ++ (b ++ c))%string.
Proof. induction a as [|x a IH]; simpl; [reflexivity | rewrite IH; reflexivity]. Qed.

Lemma string_length_app (a b : string) :
  String.length (a ++ b)%string = String.length a + String.length b.
Proof. induction a as [|x a IH]; simpl; [reflexivity | rewrite IH; reflexivity]. Qed.

Lemma string_app_cancel_r (f : string) :
  forall a b, (a ++ f = b ++ f)%string -> a = b.
Proof.
  induction a as [|x a IH]; intros [|y b] H; simpl in H.
  - reflexivity.
  - apply (f_equal String.length) in H. simpl in H.
    rewrite string_length_app in H. lia.
  - apply (f_equal String.length) in H. simpl in H.
    rewrite string_length_app in H. lia.
  - injection H as Hx Hab. rewrite Hx, (IH b Hab). reflexivity.
Qed.

Lemma split_slash_not_nil (p : string) : split_slash p <> [].
Proof.
  induction p as [|c p IH]; simpl; [discriminate|].
  destruct (split_slash p) as [|comp comps]; [contradiction|].
  destruct (Ascii.eqb c "/"%char); discriminate.
Qed.

Lemma plain_filename_relative (f : string) :
  plain_filename f = true -> PosixPath.is_absolute f = false.
Proof.
  unfold plain_filename. destruct f as [|c f]; [reflexivity|].
  cbn [split_slash PosixPath.is_absolute].
  pose proof (split_slash_not_nil f) as Hnil.
  destruct (split_slash f) as [|comp comps]; [contradiction|].
  destruct (Ascii.eqb_spec c "/"%char) as [Hc | Hc].
  - discriminate.
  - intros _. destruct c as [[] [] [] [] [] [] [] []]; try reflexivity.
    exfalso. apply Hc. reflexivity.
Qed.

Lemma normalized_directory_cases (d : string) :
  normalized_directory d = true ->
  d = "/"
  \/ (d <> "/" /\ PosixPath.is_absolute d = true
      /\ PosixPath.ends_with_slash d = false).
Proof.
  unfold normalized_directory. intros H.
  destruct (String.eqb_spec d "/") as [Hroot | Hnot]; [left; exact Hroot | right].
  cbn [orb] in H. apply andb_true_iff in H as [H _].
  apply andb_true_iff in H as [Habs Hslash].
  apply negb_true_iff in Hslash. repeat split; assumption.
Qed.

Lemma dir_prefix_absolute (d f : string) :
  normalized_directory d = true ->
  PosixPath.is_absolute (dir_prefix d ++ f)%string = true.
Proof.
  intros Hd. unfold dir_prefix.
  destruct (normalized_directory_cases d Hd) as [Hroot | (Hnot & Habs & _)].
  - subst d. reflexivity.
  - apply String.eqb_neq in Hnot. rewrite Hnot.
    destruct d as [|c d]; [discriminate Habs|].
    simpl in *. exact Habs.
Qed.

(** Joining a normalised directory and a relative name. *)
Lemma join_normalized_directory (d f : string) :
  normalized_directory d = true ->
  PosixPath.is_absolute f = false ->
  PosixPath.join d f = (dir_prefix d ++ f)%string.
Proof.
  intros Hd Hf. unfold PosixPath.join, dir_prefix. rewrite Hf.
  destruct (normalized_directory_cases d Hd) as [Hroot | (Hnot & Habs & Hslash)].
  - subst d. reflexivity.
  - apply String.eqb_neq in Hnot. rewrite Hnot, Hslash.
    destruct (String.eqb_spec d "") as [Hempty | _].
    + subst d. discriminate Habs.
    + cbn [orb]. rewrite string_app_assoc. reflexivity.
Qed.

Lemma dir_prefix_injective (d1 d2 : string) :
  normalized_directory d1 = true ->
  normalized_directory d2 = true ->
  dir_prefix d1 = dir_prefix d2 ->
  d1 = d2.
Proof.
  intros H1 H2. unfold dir_prefix.
  destruct (normalized_directory_cases d1 H1) as [R1 | (N1 & A1 & _)];
    destruct (normalized_directory_cases d2 H2) as [R2 | (N2 & A2 & _)].
  - congruence.
  - subst d1. apply String.eqb_neq in N2. rewrite N2. cbn [String.eqb].
    intros H. apply (string_app_cancel_r "/" "" d2) in H. subst d2. discriminate A2.
  - subst d2. apply String.eqb_neq in N1. rewrite N1.
    intros H. symmetry in H.
    apply (string_app_cancel_r "/" "" d1) in H. subst d1. discriminate A1.
  - apply String.eqb_neq in N1, N2. rewrite N1, N2.
    apply string_app_cancel_r.
Qed.

(** The two paths the program opens for one file name. *)
Lemma read_and_write_paths (proc : process) (filename : string) :
  normalized_directory (getcwd proc) = true ->
  normalized_directory (PosixPath.dirname (dunder_file proc)) = true ->
  plain_filename filename = true ->
  resolve proc (load_path proc filename)
  = (dir_prefix (PosixPath.dirname (dunder_file proc)) ++ filename)%string
  /\ resolve proc filename = (dir_prefix (getcwd proc) ++ filename)%string.
Proof.
  intros Hcwd Hdir Hname.
  pose proof (plain_filename_relative filename Hname) as Hrel.
  unfold resolve, load_path. split.
  - rewrite (join_normalized_directory _ _ Hdir Hrel).
    unfold PosixPath.join at 1. rewrite (dir_prefix_absolute _ filename Hdir).
    reflexivity.
  - apply join_normalized_directory; assumption.
Qed.

(** C10.  [load_JSON] opens the name in the directory of the source file and
    [write_JSON] opens it in the working directory.  When the two
    directories differ these are two files: what [load_JSON] returns after
    a [write_JSON] of the same name is what it returned before, whatever was
    written, and it is the empty dictionary when the script directory has no
    such file. *)
Theorem write_JSON_then_load_JSON_other_file :
  forall json_load json_dump proc fs filename written,
    normalized_directory (getcwd proc) = true ->
    normalized_directory (PosixPath.dirname (dunder_file proc)) = true ->
    plain_filename filename = true ->
    PosixPath.dirname (dunder_file proc) <> getcwd proc ->
    resolve proc (load_path proc filename) <> resolve proc filename
    /\ load_JSON json_load proc (write_JSON json_dump proc fs filename written) filename
       = load_JSON json_load proc fs filename
    /\ (fs (resolve proc (load_path proc filename)) = None ->
        load_JSON json_load proc (write_JSON json_dump proc fs filename written) filename
        = Return []).
Proof.
  intros json_load json_dump proc fs filename written Hcwd Hdir Hname Hdiff.
  destruct (read_and_write_paths proc filename Hcwd Hdir Hname) as [Hread Hwrite].
  assert (Hpaths : resolve proc (load_path proc filename) <> resolve proc filename).
  { rewrite Hread, Hwrite. intros Heq.
    apply string_app_cancel_r in Heq.
    apply dir_prefix_injective in Heq; [contradiction | assumption | assumption]. }
  assert (Hload : load_JSON json_load proc
                    (write_JSON json_dump proc fs filename written) filename
                  = load_JSON json_load proc fs filename).
  { unfold load_JSON, open_read, write_JSON, open_write.
    apply String.eqb_neq in Hpaths. rewrite Hpaths. reflexivity. }
  split; [exact Hpaths | split; [exact Hload|]].
  intros Hmissing. rewrite Hload. unfold load_JSON, open_read.
  rewrite Hmissing. reflexivity.
Qed.

Lemma write_JSON_then_load_JSON_other_file_witness :
  load_JSON sample_json_load sample_process
            (write_JSON sample_json_dump sample_process empty_disk
                        "apple_products.json" [("Lisa", mk_entry "1983" "Lisa")])
            "apple_products.json"
  = Return [].
Proof.
  destruct (write_JSON_then_load_JSON_other_file
              sample_json_load sample_json_dump sample_process empty_disk
              "apple_products.json" [("Lisa", mk_entry "1983" "Lisa")])
    as (_ & _ & Hempty).
  - reflexivity.
  - reflexivity.
  - reflexivity.
  - simpl. discriminate.
  - apply Hempty. reflexivity.
Defined.


(** * Further properties of the normaliser *)

(** X1.  A store whose names are pairwise different keeps that property
    through a call, whether the call returns or raises. *)
Theorem add_25_entries_keys_unique :
  forall doc data0,
    NoDup (dict_keys data0) ->
    NoDup (dict_keys (fst (add_25_entries doc data0))).
Proof.
  intros doc data0 Hnodup.
  destruct (add_25_entries_store doc data0) as (added & Hd & _ & Hadded & Hfresh & _).
  rewrite Hd. unfold dict_keys in *. rewrite map_app.
  apply NoDup_app; [exact Hnodup | exact Hadded | ].
  intros name Hold Hnew. apply Hfresh in Hnew.
  apply dict_get_absent_iff in Hnew. exact (Hnew Hold).
Qed.

Lemma add_25_entries_keys_unique_witness :
  NoDup (dict_keys (fst (add_25_entries span_table [("Lisa", mk_entry "1983" "Lisa")]))).
Proof.
  apply add_25_entries_keys_unique.
  simpl. constructor; [intros [] | constructor].
Defined.

(** A row that has a [bgcolor] but no first cell leaves the loop where it
    was. *)
Lemma for_rows_skip_row (row : tr) (bgcolor : string) (post : list tr) :
  tr_bgcolor row = Some bgcolor ->
  tr_td row = None ->
  forall pre st,
    entries_added st < 25 ->
    for_rows (pre ++ row :: post) st = for_rows (pre ++ post) st.
Proof.
  intros Hbg Htd.
  assert (Hbody : forall st, loop_body row st = Return st).
  { intros st. unfold loop_body. rewrite Hbg, Htd. reflexivity. }
  induction pre as [|r pre IH]; intros st Hcap.
  - cbn [app]. rewrite for_rows_cons, Hbody. unfold continue_rows.
    replace (25 <=? entries_added st)%nat with false
      by (symmetry; apply Nat.leb_gt; exact Hcap).
    reflexivity.
  - rewrite <- !app_comm_cons, !for_rows_cons.
    destruct (loop_body r st) as [st1|e]; [|reflexivity].
    unfold continue_rows.
    destruct (25 <=? entries_added st1)%nat eqn:Hbreak; [reflexivity|].
    apply IH. apply Nat.leb_gt in Hbreak. exact Hbreak.
Qed.

(** X2.  A row without a [bgcolor] attribute, or without a first cell, has
    no effect on a call wherever it stands in the table and whatever else
    it contains: such a row is not required to have a link. *)
Theorem add_25_entries_ignores_row :
  forall pre row post data0,
    tr_bgcolor row = None \/ tr_td row = None ->
    add_25_entries (pre ++ row :: post) data0 = add_25_entries (pre ++ post) data0.
Proof.
  intros pre row post data0 Hrow.
  unfold add_25_entries, find_all_tr_bgcolor.
  rewrite !filter_app. cbn [filter].
  destruct (tr_bgcolor row) as [bgcolor|] eqn:Hbg; [|reflexivity].
  destruct Hrow as [Hnone | Htd]; [discriminate Hnone|].
  f_equal. apply (for_rows_skip_row row bgcolor _ Hbg Htd).
  simpl. lia.
Qed.

Lemma add_25_entries_ignores_row_witness :
  add_25_entries [span_first; mk_tr (Some "FFFF79") None None; span_follower] []
  = add_25_entries [span_first; span_follower] [].
Proof.
  apply (add_25_entries_ignores_row [span_first] (mk_tr (Some "FFFF79") None None)
           [span_follower] []).
  right. reflexivity.
Defined.

(** When an iteration raises. *)
Lemma loop_body_raises (row : tr) (st : loop_state) (e : exception) :
  loop_body row st = Raise e ->
  tr_bgcolor row = None /\ e = KeyError
  \/ (exists cell attr,
        tr_td row = Some cell /\ td_rowspan cell = Some attr
        /\ PyStr.int attr = None /\ e = ValueError)
  \/ (exists cell, tr_td row = Some cell /\ tr_a row = None /\ e = AttributeError).
Proof.
  unfold loop_body, read_rowspan, make_entry.
  destruct (tr_bgcolor row) as [bg|]; cbn [bind];
    [|intros H; injection H as H; left; split; [reflexivity | symmetry; exact H]].
  destruct (tr_td row) as [cell|]; [|discriminate].
  destruct (td_rowspan cell) as [attr|] eqn:Hattr.
  - destruct (PyStr.int attr) as [n|] eqn:Hint; cbn [bind].
    + destruct (tr_a row) as [text|]; cbn [bind].
      * destruct (negb (n =? 0)%Z); cbn [bind];
          destruct (dict_get _ (data st)); discriminate.
      * intros H. injection H as H. subst e. right. right. exists cell.
        repeat split; reflexivity.
    + intros H. injection H as H. subst e. right. left. exists cell, attr.
      repeat split; try reflexivity; assumption.
  - cbn [bind]. destruct (tr_a row) as [text|]; cbn [bind].
    + destruct (negb (rowspan st =? 0)%Z); cbn [bind];
        destruct (dict_get _ (data st)); discriminate.
    + intros H. injection H as H. subst e. right. right. exists cell.
      repeat split; reflexivity.
Qed.

Lemma for_rows_exceptions (table_list : list tr) :
  Forall (fun row => tr_bgcolor row <> None) table_list ->
  forall st st' e,
    for_rows table_list st = (st', Some e) ->
    e = ValueError \/ e = AttributeError.
Proof.
  induction table_list as [|row rest IH]; intros Hbg st st' e Hrun.
  - discriminate Hrun.
  - apply Forall_cons_iff in Hbg as [Hbg1 Hbg'].
    rewrite for_rows_cons in Hrun.
    destruct (loop_body row st) as [st1|e1] eqn:Hbody.
    + unfold continue_rows in Hrun.
      destruct (25 <=? entries_added st1)%nat; [discriminate Hrun|].
      exact (IH Hbg' _ _ _ Hrun).
    + injection Hrun as _ He. subst e1.
      destruct (loop_body_raises _ _ _ Hbody)
        as [[Hnone _] | [(_ & _ & _ & _ & _ & He) | (_ & _ & _ & He)]].
      * contradiction.
      * left. exact He.
      * right. exact He.
Qed.

(** X3.  A call raises nothing but [ValueError], from a [rowspan] attribute
    that is not an integer, and [AttributeError], from a row with a first
    cell and no link; the subscript [row['bgcolor']] never fails. *)
Theorem add_25_entries_exceptions :
  forall doc data0 e,
    snd (add_25_entries doc data0) = Raise e ->
    e = ValueError \/ e = AttributeError.
Proof.
  intros doc data0 e. unfold add_25_entries, leave_loop.
  destruct (for_rows (find_all_tr_bgcolor doc) (initial_state data0)) as [st exc] eqn:Hrun.
  destruct exc as [e1|]; cbn [snd]; [|discriminate].
  intros H. injection H as H. subst e1.
  exact (for_rows_exceptions _ (selected_rows_have_bgcolor doc) _ _ _ Hrun).
Qed.

Lemma add_25_entries_exceptions_witness :
  snd (add_25_entries [mk_tr (Some "FFFF79") (Some (mk_td None "1976")) None] [])
  = Raise AttributeError
  /\ (AttributeError = ValueError \/ AttributeError = AttributeError).
Proof.
  split; [reflexivity|].
  apply (add_25_entries_exceptions
           [mk_tr (Some "FFFF79") (Some (mk_td None "1976")) None] [] AttributeError).
  reflexivity.
Defined.

(** X4.  A row that raises ends the call at once: the store keeps the
    records of the rows before it and nothing of the rows after it.  With a
    first cell whose [rowspan] is not an integer the exception is
    [ValueError], also when the row has no link; with a usable first cell
    and no link it is [AttributeError]. *)
Theorem add_25_entries_failing_row :
  forall doc data0 pre row post st1 cell,
    find_all_tr_bgcolor doc = pre ++ row :: post ->
    for_rows pre (initial_state data0) = (st1, None) ->
    entries_added st1 < 25 ->
    tr_td row = Some cell ->
    ((exists attr, td_rowspan cell = Some attr /\ PyStr.int attr = None) ->
     add_25_entries doc data0 = (data st1, Raise ValueError))
    /\ ((forall attr, td_rowspan cell = Some attr -> PyStr.int attr <> None) ->
        tr_a row = None ->
        add_25_entries doc data0 = (data st1, Raise AttributeError)).
Proof.
  intros doc data0 pre row post st1 cell Hsel Hpre Hcap Htd.
  assert (Hbg : tr_bgcolor row <> None).
  { pose proof (selected_rows_have_bgcolor doc) as Hall. rewrite Hsel in Hall.
    apply Forall_app in Hall as [_ Hall].
    apply Forall_cons_iff in Hall as [Hrow _]. exact Hrow. }
  destruct (tr_bgcolor row) as [bg|] eqn:Ebg; [clear Hbg | contradiction].
  assert (Hrun : forall e, loop_body row st1 = Raise e ->
                           add_25_entries doc data0 = (data st1, Raise e)).
  { intros e Hbody. unfold add_25_entries.
    rewrite Hsel, (for_rows_app pre (row :: post) _ _ Hpre Hcap).
    rewrite for_rows_cons, Hbody. reflexivity. }
  split.
  - intros (attr & Hattr & Hint). apply Hrun.
    unfold loop_body, read_rowspan. rewrite Ebg, Htd, Hattr, Hint. reflexivity.
  - intros Hparse Ha. apply Hrun.
    unfold loop_body, read_rowspan, make_entry. rewrite Ebg, Htd, Ha. cbn [bind].
    destruct (td_rowspan cell) as [attr|]; [|reflexivity].
    destruct (PyStr.int attr) as [n|] eqn:Hint; [reflexivity|].
    exfalso. exact (Hparse attr eq_refl Hint).
Qed.

Lemma add_25_entries_failing_row_witness :
  add_25_entries [span_first; mk_tr (Some "FFFF79") (Some (mk_td (Some "two") "1978")) None;
                  span_after] []
  = ([("Apple II", mk_entry "1977" "Apple 1/2/2GS/3")], Raise ValueError).
Proof.
  destruct (add_25_entries_failing_row
              [span_first; mk_tr (Some "FFFF79") (Some (mk_td (Some "two") "1978")) None;
               span_after]
              [] [span_first]
              (mk_tr (Some "FFFF79") (Some (mk_td (Some "two") "1978")) None)
              [span_after]
              (mk_state 1 "1977" 1 [("Apple II", mk_entry "1977" "Apple 1/2/2GS/3")])
              (mk_td (Some "two") "1978")
              eq_refl eq_refl) as [Hvalue _].
  - simpl. lia.
  - reflexivity.
  - apply Hvalue. exists "two". split; reflexivity.
Defined.

(** Rows after the [break] are not read. *)
Lemma for_rows_app_break (pre post : list tr) :
  forall st0 st,
    for_rows pre st0 = (st, None) ->
    entries_added st0 < 25 ->
    25 <= entries_added st ->
    for_rows (pre ++ post) st0 = (st, None).
Proof.
  induction pre as [|row pre IH]; intros st0 st Hrun Hcap0 Hcap.
  - simpl in Hrun. injection Hrun as Hst. subst st. lia.
  - rewrite <- app_comm_cons, for_rows_cons. rewrite for_rows_cons in Hrun.
    destruct (loop_body row st0) as [st1|e]; [|discriminate Hrun].
    unfold continue_rows in *.
    destruct (25 <=? entries_added st1)%nat eqn:Hbreak; [exact Hrun|].
    apply Nat.leb_gt in Hbreak. apply IH; assumption.
Qed.

(** X5.  Once a call has added 25 records it returns 25 and the rest of the
    table is not looked at: rows after that point cannot add records and
    cannot make the call raise, however they are formed. *)
Theorem add_25_entries_stops_at_25 :
  forall doc data0 pre post st,
    find_all_tr_bgcolor doc = pre ++ post ->
    for_rows pre (initial_state data0) = (st, None) ->
    entries_added st = 25 ->
    add_25_entries doc data0 = (data st, Return 25).
Proof.
  intros doc data0 pre post st Hsel Hpre Hcap.
  unfold add_25_entries. rewrite Hsel.
  rewrite (for_rows_app_break pre post _ _ Hpre); [| simpl; lia | lia].
  unfold leave_loop. rewrite Hcap. reflexivity.
Qed.

Lemma add_25_entries_stops_at_25_witness :
  snd (add_25_entries
         (catalogue 25 ++ [mk_tr (Some "FFFF79") (Some (mk_td (Some "x") "1990")) None]) [])
  = Return 25.
Proof.
  destruct (for_rows (catalogue 25) (initial_state [])) as [st exc] eqn:Hrun.
  assert (Hexc : exc = None).
  { apply (f_equal snd) in Hrun. vm_compute in Hrun. symmetry. exact Hrun. }
  assert (Hcap : entries_added st = 25).
  { apply (f_equal (fun r => entries_added (fst r))) in Hrun.
    vm_compute in Hrun. symmetry. exact Hrun. }
  subst exc.
  rewrite (add_25_entries_stops_at_25
             (catalogue 25 ++ [mk_tr (Some "FFFF79") (Some (mk_td (Some "x") "1990")) None])
             [] (catalogue 25)
             [mk_tr (Some "FFFF79") (Some (mk_td (Some "x") "1990")) None] st
             eq_refl Hrun Hcap).
  reflexivity.
Defined.




(** ** Complete runs *)

(** After an iteration on a row with a first cell the row's name is in the
    store. *)
Lemma loop_body_stores_name (row : tr) (st st' : loop_state) :
  loop_body row st = Return st' ->
  tr_td row <> None ->
  dict_get (row_name row) (data st') <> None.
Proof.
  unfold loop_body, row_name, make_entry.
  destruct (tr_bgcolor row) as [bg|]; cbn [bind]; [|discriminate].
  destruct (tr_td row) as [cell|]; [|intros _ H; contradiction].
  destruct (read_rowspan cell st) as [[span span_date]|]; cbn [bind]; [|discriminate].
  destruct (tr_a row) as [text|]; cbn [bind]; [|discriminate].
  assert (Hadd : forall details st1,
             match dict_get (PyStr.rstrip text) (data st) with
             | None => Return (mk_state st1 span_date (S (entries_added st))
                                 (dict_set (PyStr.rstrip text) details (data st)))
             | Some _ => Return (mk_state st1 span_date (entries_added st) (data st))
             end = Return st' ->
             dict_get (PyStr.rstrip text) (data st') <> None).
  { intros details st1.
    destruct (dict_get (PyStr.rstrip text) (data st)) eqn:Hget;
      intros H; injection H as H; subst st'; cbn [data].
    - rewrite Hget. discriminate.
    - rewrite (dict_set_absent _ _ _ Hget), dict_get_app, Hget.
      cbn [dict_get]. rewrite String.eqb_refl. discriminate. }
  destruct (negb (span =? 0)%Z); cbn [bind]; intros H _; exact (Hadd _ _ H).
Qed.

Lemma for_rows_complete (table_list : list tr) :
  forall st st',
    for_rows table_list st = (st', None) ->
    entries_added st' < 25 ->
    forall row,
      In row table_list ->
      tr_td row <> None ->
      dict_get (row_name row) (data st') <> None.
Proof.
  induction table_list as [|r rest IH]; intros st st' Hrun Hcap row Hin Htd;
    [destruct Hin|].
  rewrite for_rows_cons in Hrun.
  destruct (loop_body r st) as [st1|e] eqn:Hbody; [|discriminate Hrun].
  unfold continue_rows in Hrun.
  destruct (25 <=? entries_added st1)%nat eqn:Hbreak.
  - injection Hrun as Hst. subst st'. apply Nat.leb_le in Hbreak. lia.
  - apply Nat.leb_gt in Hbreak. destruct Hin as [Heq | Hin].
    + subst r.
      destruct (for_rows_store _ _ _ _ Hrun Hbreak) as (added & Hd & _).
      rewrite Hd, dict_get_app.
      pose proof (loop_body_stores_name _ _ _ Hbody Htd) as Hname.
      destruct (dict_get (row_name row) (data st1)); [discriminate | contradiction].
    + exact (IH _ _ Hrun Hcap row Hin Htd).
Qed.

(** X7.  A call that returns fewer than 25 has covered the whole table:
    every row with a [bgcolor] and a first cell has its name in the store
    afterwards. *)
Theorem add_25_entries_complete_below_25 :
  forall doc data0 data1 n,
    add_25_entries doc data0 = (data1, Return n) ->
    n < 25 ->
    forall row,
      In row doc ->
      tr_bgcolor row <> None ->
      tr_td row <> None ->
      dict_get (row_name row) data1 <> None.
Proof.
  intros doc data0 data1 n Hcall Hn row Hin Hbg Htd.
  unfold add_25_entries, leave_loop in Hcall.
  destruct (for_rows (find_all_tr_bgcolor doc) (initial_state data0)) as [st exc] eqn:Hrun.
  destruct exc as [e|]; [discriminate Hcall|].
  injection Hcall as Hdata Hcount. subst data1 n.
  apply (for_rows_complete _ _ _ Hrun Hn); [|exact Htd].
  apply filter_In. split; [exact Hin|].
  destruct (tr_bgcolor row); [reflexivity | contradiction].
Qed.

Lemma add_25_entries_complete_below_25_witness :
  dict_get (row_name span_after)
           [ ("Apple II", mk_entry "1977" "Apple 1/2/2GS/3");
             ("Disk II", mk_entry "1977" "Computer Peripherals");
             ("Lisa", mk_entry "1983" "Lisa") ]
  <> None.
Proof.
  assert (Hn : 3 < 25) by lia.
  apply (add_25_entries_complete_below_25 span_table [] _ 3 eq_refl Hn span_after).
  - simpl. tauto.
  - discriminate.
  - discriminate.
Defined.

(** The counter and the carried date do not depend on the store: the same
    rows run over a store that has all their names move them the same way
    and add nothing. *)
Lemma loop_body_replay (row : tr) (st st' : loop_state) (k : nat) (d : store) :
  loop_body row st = Return st' ->
  (tr_td row <> None -> dict_get (row_name row) d <> None) ->
  loop_body row (mk_state (rowspan st) (rowspan_date st) k d)
  = Return (mk_state (rowspan st') (rowspan_date st') k d).
Proof.
  unfold loop_body, row_name, make_entry, read_rowspan.
  destruct (tr_bgcolor row) as [bg|]; cbn [bind]; [|discriminate].
  destruct (tr_td row) as [cell|];
    [|intros H _; injection H as H; subst st'; reflexivity].
  intros Hbody Hname. specialize (Hname ltac:(discriminate)).
  cbn [rowspan rowspan_date data entries_added].
  destruct (match td_rowspan cell with
            | Some attr =>
                match PyStr.int attr with
                | Some n => Return (n, PyStr.rstrip (td_text cell))
                | None => Raise ValueError
                end
            | None => Return (rowspan st, rowspan_date st)
            end) as [[span span_date]|]; cbn [bind] in *; [|discriminate Hbody].
  destruct (tr_a row) as [text|]; cbn [bind] in *; [|discriminate Hbody].
  destruct (negb (span =? 0)%Z);
    cbn [bind rowspan rowspan_date data entries_added] in *;
    destruct (dict_get (PyStr.rstrip text) d) as [v|]; try contradiction;
    destruct (dict_get (PyStr.rstrip text) (data st));
    injection Hbody as Hbody; subst st'; reflexivity.
Qed.

Lemma for_rows_replay (table_list : list tr) (k : nat) (d : store) :
  k < 25 ->
  (forall row, In row table_list -> tr_td row <> None ->
               dict_get (row_name row) d <> None) ->
  forall st st',
    for_rows table_list st = (st', None) ->
    entries_added st' < 25 ->
    for_rows table_list (mk_state (rowspan st) (rowspan_date st) k d)
    = (mk_state (rowspan st') (rowspan_date st') k d, None).
Proof.
  intros Hk. induction table_list as [|row rest IH]; intros Hnames st st' Hrun Hcap.
  - simpl in Hrun. injection Hrun as Hst. subst st'. reflexivity.
  - rewrite for_rows_cons in *.
    destruct (loop_body row st) as [st1|e] eqn:Hbody; [|discriminate Hrun].
    rewrite (loop_body_replay row st st1 k d Hbody (Hnames row (or_introl eq_refl))).
    unfold continue_rows in *. cbn [entries_added].
    replace (25 <=? k)%nat with false by (symmetry; apply Nat.leb_gt; exact Hk).
    destruct (25 <=? entries_added st1)%nat eqn:Hbreak.
    + injection Hrun as Hst. subst st'. apply Nat.leb_le in Hbreak. lia.
    + apply (IH (fun r Hr => Hnames r (or_intror Hr)) st1 st' Hrun Hcap).
Qed.

(** X8.  A call that returned fewer than 25 has nothing left to do: the
    same table normalised again into the store it produced adds no record
    and returns 0. *)
Theorem add_25_entries_again_adds_nothing :
  forall doc data0 data1 n,
    add_25_entries doc data0 = (data1, Return n) ->
    n < 25 ->
    add_25_entries doc data1 = (data1, Return 0).
Proof.
  intros doc data0 data1 n Hcall Hn.
  unfold add_25_entries, leave_loop in Hcall.
  destruct (for_rows (find_all_tr_bgcolor doc) (initial_state data0)) as [st exc] eqn:Hrun.
  destruct exc as [e|]; [discriminate Hcall|].
  injection Hcall as Hdata Hcount. subst data1 n.
  unfold add_25_entries.
  assert (Hzero : 0 < 25) by lia.
  change (initial_state (data st))
    with (mk_state (rowspan (initial_state data0)) (rowspan_date (initial_state data0))
                   0 (data st)).
  rewrite (for_rows_replay (find_all_tr_bgcolor doc) 0 (data st) Hzero
             (for_rows_complete _ _ _ Hrun Hn) (initial_state data0) st Hrun Hn).
  reflexivity.
Qed.

Lemma add_25_entries_again_adds_nothing_witness :
  add_25_entries span_table
    [ ("Apple II", mk_entry "1977" "Apple 1/2/2GS/3");
      ("Disk II", mk_entry "1977" "Computer Peripherals");
      ("Lisa", mk_entry "1983" "Lisa") ]
  = ([ ("Apple II", mk_entry "1977" "Apple 1/2/2GS/3");
       ("Disk II", mk_entry "1977" "Computer Peripherals");
       ("Lisa", mk_entry "1983" "Lisa") ],
     Return 0).
Proof.
  assert (Hn : 3 < 25) by lia.
  exact (add_25_entries_again_adds_nothing span_table [] _ 3 eq_refl Hn).
Defined.

(** ** Where records come from *)

Lemma color_code_lookup_range (color_code : string) :
  In (color_code_lookup color_code) categories \/ color_code_lookup color_code = "N/A".
Proof.
  unfold color_code_lookup.
  repeat match goal with
         | |- context [if ?b then _ else _] => destruct b; [left; simpl; tauto|]
         end.
  right. reflexivity.
Qed.

Lemma loop_body_provenance (table : list tr) (row : tr) (st st' : loop_state) :
  In row table ->
  (rowspan st = 0%Z \/ cell_date table (rowspan_date st)) ->
  loop_body row st = Return st' ->
  (rowspan st' = 0%Z \/ cell_date table (rowspan_date st'))
  /\ (data st' = data st
      \/ exists kv, data st' = data st ++ [kv] /\ from_table table kv).
Proof.
  intros Hin Hinv. unfold loop_body.
  destruct (tr_bgcolor row) as [bg|] eqn:Ebg; cbn [bind]; [|discriminate].
  destruct (tr_td row) as [cell|] eqn:Etd;
    [|intros H; injection H as H; subst st'; split; [exact Hinv | left; reflexivity]].
  assert (Hown : cell_date table (PyStr.rstrip (td_text cell))).
  { exists row, cell. repeat split; assumption. }
  assert (Hspan : forall span span_date,
             read_rowspan cell st = Return (span, span_date) ->
             span = 0%Z \/ cell_date table span_date).
  { unfold read_rowspan. intros span span_date.
    destruct (td_rowspan cell) as [attr|].
    - destruct (PyStr.int attr); [|discriminate].
      intros H. injection H as _ H. subst span_date. right. exact Hown.
    - intros H. injection H as H1 H2. subst span span_date. exact Hinv. }
  destruct (read_rowspan cell st) as [[span span_date]|]; cbn [bind]; [|discriminate].
  specialize (Hspan span span_date eq_refl).
  unfold make_entry.
  destruct (tr_a row) as [text|] eqn:Ea; cbn [bind]; [|discriminate].
  destruct (Z.eqb_spec span 0) as [Hzero | Hnonzero]; cbn [negb bind].
  - destruct (dict_get (PyStr.rstrip text) (data st)) eqn:Hget;
      intros H; injection H as H; subst st'; cbn [rowspan rowspan_date data].
    + split; [left; exact Hzero | left; reflexivity].
    + split; [left; exact Hzero | right].
      eexists. split; [apply dict_set_absent, Hget|].
      exists row, bg, text. cbn [fst snd category release_date].
      repeat split; assumption.
  - assert (Hdate : cell_date table span_date) by (destruct Hspan; [contradiction | assumption]).
    destruct (dict_get (PyStr.rstrip text) (data st)) eqn:Hget;
      intros H; injection H as H; subst st'; cbn [rowspan rowspan_date data].
    + split; [right; exact Hdate | left; reflexivity].
    + split; [right; exact Hdate | right].
      eexists. split; [apply dict_set_absent, Hget|].
      exists row, bg, text. cbn [fst snd category release_date].
      repeat split; assumption.
Qed.

Lemma for_rows_provenance (table : list tr) :
  forall table_list,
    (forall row, In row table_list -> In row table) ->
    forall st st' exc,
      (rowspan st = 0%Z \/ cell_date table (rowspan_date st)) ->
      for_rows table_list st = (st', exc) ->
      exists added,
        data st' = data st ++ added /\ Forall (from_table table) added.
Proof.
  induction table_list as [|row rest IH]; intros Hsub st st' exc Hinv Hrun.
  - simpl in Hrun. injection Hrun as Hst _. subst st'.
    exists []. rewrite app_nil_r. split; [reflexivity | constructor].
  - rewrite for_rows_cons in Hrun.
    destruct (loop_body row st) as [st1|e] eqn:Hbody.
    + destruct (loop_body_provenance table row st st1
                  (Hsub row (or_introl eq_refl)) Hinv Hbody) as [Hinv1 Hdata].
      assert (Htail : exists added1,
                 data st' = data st1 ++ added1 /\ Forall (from_table table) added1).
      { unfold continue_rows in Hrun.
        destruct (25 <=? entries_added st1)%nat.
        - injection Hrun as Hst _. subst st'.
          exists []. rewrite app_nil_r. split; [reflexivity | constructor].
        - exact (IH (fun r Hr => Hsub r (or_intror Hr)) st1 st' exc Hinv1 Hrun). }
      destruct Htail as (added1 & Hd1 & Hfrom1).
      destruct Hdata as [Hsame | (kv & Hd & Hfrom)].
      * exists added1. rewrite Hd1, Hsame. split; [reflexivity | exact Hfrom1].
      * exists (kv :: added1). rewrite Hd1, Hd, <- app_assoc.
        split; [reflexivity | constructor; assumption].
    + injection Hrun as Hst _. subst st'.
      exists []. rewrite app_nil_r. split; [reflexivity | constructor].
Qed.

(** X9.  Every record a call adds is made from the table: its name is the
    link text of a row that has a [bgcolor], its category is the label of
    that row's colour, one of the seven labels or [N/A], and its date is the
    text of the first cell of some row of the table; names and dates have
    their trailing white space removed. *)
Theorem add_25_entries_records_from_table :
  forall doc data0,
    exists added,
      fst (add_25_entries doc data0) = data0 ++ added
      /\ Forall (fun kv =>
                   from_table doc kv
                   /\ (In (category (snd kv)) categories
                       \/ category (snd kv) = "N/A"))
                added.
Proof.
  intros doc data0. unfold add_25_entries, leave_loop.
  destruct (for_rows (find_all_tr_bgcolor doc) (initial_state data0)) as [st exc] eqn:Hrun.
  destruct (for_rows_provenance doc (find_all_tr_bgcolor doc)
              (fun row Hrow => proj1 (proj1 (filter_In _ _ _) Hrow))
              (initial_state data0) st exc (or_introl eq_refl) Hrun)
    as (added & Hd & Hfrom).
  exists added. split; [exact Hd|].
  apply Forall_forall. intros kv Hkv.
  pose proof (proj1 (Forall_forall _ _) Hfrom kv Hkv) as Hkv'.
  split; [exact Hkv'|].
  destruct Hkv' as (row & bg & text & _ & _ & _ & _ & Hcat & _).
  rewrite Hcat. apply color_code_lookup_range.
Qed.

(** * Further properties of the relational mirror *)

(** ** The category table *)

Lemma insert_or_ignore_category_spec (id : Z) (label : string)
    (rows : list category_row) :
  exists new,
    insert_or_ignore_category id label rows = rows ++ new
    /\ category_conflict id label (rows ++ new) = true
    /\ (NoDup (map cat_id rows) -> NoDup (map cat_id (rows ++ new)))
    /\ (NoDup (map cat_category rows) -> NoDup (map cat_category (rows ++ new))).
Proof.
  unfold insert_or_ignore_category.
  fold (category_conflict id label rows).
  destruct (category_conflict id label rows) eqn:Hconflict.
  - exists []. rewrite app_nil_r. repeat split; tauto.
  - exists [mk_category_row id label]. split; [reflexivity | split; [|split]].
    + unfold category_conflict. rewrite existsb_app. cbn [existsb cat_id cat_category].
      rewrite Z.eqb_refl. rewrite orb_true_r. reflexivity.
    + intros Hnodup. rewrite map_app. apply NoDup_snoc; [exact Hnodup|].
      intros Hin. apply in_map_iff in Hin as (r & Hid & Hr).
      assert (Htrue : category_conflict id label rows = true).
      { apply existsb_exists. exists r. split; [exact Hr|].
        rewrite Hid, Z.eqb_refl. reflexivity. }
      congruence.
    + intros Hnodup. rewrite map_app. apply NoDup_snoc; [exact Hnodup|].
      intros Hin. apply in_map_iff in Hin as (r & Hlabel & Hr).
      assert (Htrue : category_conflict id label rows = true).
      { apply existsb_exists. exists r. split; [exact Hr|].
        rewrite Hlabel, String.eqb_refl. apply orb_true_r. }
      congruence.
Qed.

Lemma insert_or_ignore_category_conflict (id : Z) (label : string)
    (rows : list category_row) :
  category_conflict id label rows = true ->
  insert_or_ignore_category id label rows = rows.
Proof.
  intros H. unfold insert_or_ignore_category.
  fold (category_conflict id label rows). rewrite H. reflexivity.
Qed.

Lemma insert_categories_spec (labels : list string) :
  forall i rows,
    exists new,
      insert_categories i labels rows = rows ++ new
      /\ (NoDup (map cat_id rows) -> NoDup (map cat_id (rows ++ new)))
      /\ (NoDup (map cat_category rows) -> NoDup (map cat_category (rows ++ new))).
Proof.
  induction labels as [|label labels IH]; intros i rows; cbn [insert_categories].
  - exists []. rewrite app_nil_r. repeat split; tauto.
  - destruct (insert_or_ignore_category_spec i label rows) as (new1 & H1 & _ & Hid1 & Hl1).
    rewrite H1.
    destruct (IH (i + 1)%Z (rows ++ new1)) as (new2 & H2 & Hid2 & Hl2).
    exists (new1 ++ new2). rewrite app_assoc.
    split; [exact H2 | split; intros H; [apply Hid2, Hid1, H | apply Hl2, Hl1, H]].
Qed.

(** After the seeding loop every one of its insertions meets a conflict,
    also when more rows have been appended since. *)
Lemma insert_categories_again (labels : list string) :
  forall i rows more,
    insert_categories i labels (insert_categories i labels rows ++ more)
    = insert_categories i labels rows ++ more.
Proof.
  induction labels as [|label labels IH]; intros i rows more; cbn [insert_categories];
    [reflexivity|].
  destruct (insert_or_ignore_category_spec i label rows) as (new1 & H1 & Hconflict & _).
  destruct (insert_categories_spec labels (i + 1)%Z (insert_or_ignore_category i label rows))
    as (new2 & H2 & _).
  rewrite insert_or_ignore_category_conflict.
  - apply IH.
  - rewrite H2, H1. unfold category_conflict in *.
    rewrite !existsb_app, <- existsb_app, Hconflict. reflexivity.
Qed.

(** X10.  [SQL_create_categories] can be run any number of times: a second
    run changes nothing.  A run keeps every row the category table had, in
    place, and does not touch the product table. *)
Theorem SQL_create_categories_idempotent :
  forall db,
    SQL_create_categories (SQL_create_categories db) = SQL_create_categories db
    /\ (exists new,
          Apple_Categories (SQL_create_categories db)
          = Some (create_table_if_not_exists (Apple_Categories db) ++ new))
    /\ Apple_Products (SQL_create_categories db) = Apple_Products db.
Proof.
  intros db. unfold SQL_create_categories.
  cbn [Apple_Categories Apple_Products create_table_if_not_exists].
  split; [|split].
  - f_equal. f_equal.
    pose proof (insert_categories_again categories 0
                  (create_table_if_not_exists (Apple_Categories db)) []) as H.
    rewrite !app_nil_r in H. exact H.
  - destruct (insert_categories_spec categories 0
                (create_table_if_not_exists (Apple_Categories db))) as (new & H & _).
    exists new. rewrite H. reflexivity.
  - reflexivity.
Qed.

(** X11.  The seeding never breaks the two constraints of the category
    table: ids that were pairwise different stay so, and so do labels.  A
    label whose index is already the id of another row is therefore not
    inserted. *)
Theorem SQL_create_categories_keeps_constraints :
  forall db,
    NoDup (map cat_id (create_table_if_not_exists (Apple_Categories db))) ->
    NoDup (map cat_category (create_table_if_not_exists (Apple_Categories db))) ->
    NoDup (map cat_id
             (create_table_if_not_exists (Apple_Categories (SQL_create_categories db))))
    /\ NoDup (map cat_category
                (create_table_if_not_exists (Apple_Categories (SQL_create_categories db)))).
Proof.
  intros db Hids Hlabels. unfold SQL_create_categories.
  cbn [Apple_Categories create_table_if_not_exists].
  destruct (insert_categories_spec categories 0
              (create_table_if_not_exists (Apple_Categories db)))
    as (new & H & Hid & Hlabel).
  rewrite H. split; [apply Hid, Hids | apply Hlabel, Hlabels].
Qed.

Lemma SQL_create_categories_keeps_constraints_witness :
  Apple_Categories
    (SQL_create_categories (mk_database (Some [mk_category_row 1 "Newton"]) None))
  = Some [ mk_category_row 1 "Newton";
           mk_category_row 0 "Apple 1/2/2GS/3";
           mk_category_row 2 "Macintosh";
           mk_category_row 3 "Network Server";
           mk_category_row 4 "Phones/Tablets/PDAs";
           mk_category_row 5 "iPod/Consumer Products";
           mk_category_row 6 "Computer Peripherals" ]
  /\ NoDup (map cat_id
              (create_table_if_not_exists
                 (Apple_Categories
                    (SQL_create_categories
                       (mk_database (Some [mk_category_row 1 "Newton"]) None))))).
Proof.
  split; [reflexivity|].
  apply (SQL_create_categories_keeps_constraints
           (mk_database (Some [mk_category_row 1 "Newton"]) None)).
  - simpl. constructor; [intros [] | constructor].
  - simpl. constructor; [intros [] | constructor].
Defined.

(** ** The product table, continued *)

Lemma select_category_id_row (cats : option (list category_row)) (label : string)
    (id : Z) :
  select_category_id cats label = Return id ->
  exists rows c,
    cats = Some rows /\ In c rows /\ cat_category c = label /\ cat_id c = id.
Proof.
  unfold select_category_id. destruct cats as [rows|]; [|discriminate].
  destruct (find (fun r => cat_category r =? label) rows) as [c|] eqn:Hfind;
    [|discriminate].
  intros H. injection H as H. apply find_some in Hfind as [Hin Hlabel].
  apply String.eqb_eq in Hlabel. exists rows, c. repeat split; assumption.
Qed.

(** A run of the loop that returns has resolved every key. *)
Lemma update_products_returns (random_rowid : list product_row -> Z)
    (cats : option (list category_row)) (data0 : store) :
  forall keys rows rows',
    update_products random_rowid cats data0 keys rows = Return rows' ->
    forall key, In key keys -> resolves cats data0 key.
Proof.
  induction keys as [|k keys IH]; intros rows rows' Hrun key Hin; [destruct Hin|].
  cbn [update_products] in Hrun. unfold dict_getitem in Hrun.
  destruct (dict_get k data0) as [details|] eqn:Hget; cbn [bind] in Hrun;
    [|discriminate Hrun].
  destruct (select_category_id cats (category details)) as [id|] eqn:Hsel;
    cbn [bind] in Hrun; [|discriminate Hrun].
  destruct Hin as [Heq | Hin].
  - subst key. exists details, id. split; assumption.
  - exact (IH _ _ Hrun key Hin).
Qed.

Lemma update_products_mirrors (random_rowid : list product_row -> Z)
    (cats : option (list category_row)) (data0 : store) :
  forall keys rows rows',
    update_products random_rowid cats data0 keys rows = Return rows' ->
    exists new, rows' = rows ++ new /\ Forall (mirrors cats data0) new.
Proof.
  induction keys as [|k keys IH]; intros rows rows' Hrun.
  - injection Hrun as Hrows. subst rows'. exists []. rewrite app_nil_r.
    split; [reflexivity | constructor].
  - cbn [update_products] in Hrun. unfold dict_getitem in Hrun.
    destruct (dict_get k data0) as [details|] eqn:Hget; cbn [bind] in Hrun;
      [|discriminate Hrun].
    destruct (select_category_id cats (category details)) as [id|] eqn:Hsel;
      cbn [bind] in Hrun; [|discriminate Hrun].
    destruct (IH _ _ Hrun) as (new2 & Hrows & Hmirror).
    destruct (insert_or_ignore_product_shape random_rowid k (release_date details) id rows)
      as [[_ Heq] | [_ Heq]]; rewrite Heq in Hrows.
    + exists new2. split; assumption.
    + exists (mk_product_row (next_rowid random_rowid rows) k (release_date details) id :: new2).
      rewrite Hrows, <- app_assoc. split; [reflexivity|].
      constructor; [|exact Hmirror].
      destruct (select_category_id_row _ _ _ Hsel) as (crows & c & Hcats & Hc & Hlabel & Hid).
      exists details, crows, c. cbn [prod_name prod_release_date prod_category].
      repeat split; try assumption. symmetry. exact Hid.
Qed.

(** X12.  Every row a successful run adds to the product table mirrors a
    record of the store: it has the record's name and date, and its
    category column is the id of the row of [Apple_Categories] that carries
    the record's label, so the reference resolves. *)
Theorem SQL_update_database_rows_mirror_store :
  forall random_rowid db data0 db',
    SQL_update_database random_rowid db data0 = (db', Return tt) ->
    exists new,
      Apple_Products db'
      = Some (create_table_if_not_exists (Apple_Products db) ++ new)
      /\ Forall (mirrors (Apple_Categories db) data0) new
      /\ Apple_Categories db' = Apple_Categories db.
Proof.
  intros random_rowid db data0 db'. unfold SQL_update_database.
  destruct (update_products random_rowid (Apple_Categories db) data0 (dict_keys data0)
              (create_table_if_not_exists (Apple_Products db))) as [rows'|e] eqn:Hrun;
    [|discriminate].
  intros H. injection H as H. subst db'.
  destruct (update_products_mirrors _ _ _ _ _ _ Hrun) as (new & Hrows & Hmirror).
  exists new. cbn [Apple_Products Apple_Categories]. rewrite Hrows.
  repeat split. exact Hmirror.
Qed.

Lemma SQL_update_database_rows_mirror_store_witness :
  exists new,
    Some [mk_product_row 1 "Lisa" "1983" 1] = Some ([] ++ new)
    /\ Forall (mirrors (Some seeded_categories) [("Lisa", mk_entry "1983" "Lisa")]) new.
Proof.
  destruct (SQL_update_database_rows_mirror_store sample_random_rowid
              (mk_database (Some seeded_categories) None)
              [("Lisa", mk_entry "1983" "Lisa")]
              (mk_database (Some seeded_categories)
                           (Some [mk_product_row 1 "Lisa" "1983" 1]))
              eq_refl) as (new & Hrows & Hmirror & _).
  exists new. split; assumption.
Defined.

(** The largest id in use bounds every id in use. *)
Lemma fold_max_bound (l : list Z) :
  forall a x, In x (a :: l) -> (x <= fold_left Z.max l a)%Z.
Proof.
  induction l as [|b l IH]; intros a x Hin; cbn [fold_left].
  - destruct Hin as [Heq | []]. lia.
  - destruct Hin as [Heq | Hin].
    + subst x. apply Z.le_trans with (Z.max a b); [lia|].
      apply IH. left. reflexivity.
    + destruct Hin as [Heq | Hin].
      * subst x. apply Z.le_trans with (Z.max a b); [lia|].
        apply IH. left. reflexivity.
      * apply IH. right. exact Hin.
Qed.

(** The id of a new row is not in use: it is one more than the largest, or
    the engine's draw, which the engine has checked. *)
Lemma next_rowid_unused (random_rowid : list product_row -> Z)
    (rows : list product_row) :
  (forall table, ~ In (random_rowid table) (map prod_id table)) ->
  ~ In (next_rowid random_rowid rows) (map prod_id rows).
Proof.
  intros Hdraw. unfold next_rowid. destruct rows as [|r0 rows]; [intros []|].
  destruct (fold_left Z.max (map prod_id rows) (prod_id r0) <? MAX_ROWID)%Z;
    [|apply Hdraw].
  intros Hin.
  pose proof (fold_max_bound (map prod_id rows) (prod_id r0) _ Hin) as Hle.
  lia.
Qed.

Lemma insert_or_ignore_product_ids (random_rowid : list product_row -> Z)
    (name date : string) (id : Z) (rows : list product_row) :
  (forall table, ~ In (random_rowid table) (map prod_id table)) ->
  NoDup (map prod_id rows) ->
  NoDup (map prod_id (insert_or_ignore_product random_rowid name date id rows)).
Proof.
  intros Hdraw Hnodup.
  destruct (insert_or_ignore_product_shape random_rowid name date id rows)
    as [[_ Heq] | [_ Heq]]; rewrite Heq; [exact Hnodup|].
  rewrite map_app. apply NoDup_snoc; [exact Hnodup|].
  cbn [map prod_id]. apply next_rowid_unused, Hdraw.
Qed.

Lemma update_products_ids (random_rowid : list product_row -> Z)
    (cats : option (list category_row)) (data0 : store) :
  (forall table, ~ In (random_rowid table) (map prod_id table)) ->
  forall keys rows rows',
    update_products random_rowid cats data0 keys rows = Return rows' ->
    NoDup (map prod_id rows) ->
    NoDup (map prod_id rows').
Proof.
  intros Hdraw. induction keys as [|k keys IH]; intros rows rows' Hrun Hnodup.
  - injection Hrun as Hrows. subst rows'. exact Hnodup.
  - cbn [update_products] in Hrun. unfold dict_getitem in Hrun.
    destruct (dict_get k data0) as [details|]; cbn [bind] in Hrun; [|discriminate Hrun].
    destruct (select_category_id cats (category details)) as [id|];
      cbn [bind] in Hrun; [|discriminate Hrun].
    apply (IH _ _ Hrun). apply insert_or_ignore_product_ids; assumption.
Qed.

(** X13.  The primary key of the product table stays a key: when the ids of
    the rows are pairwise different before a run they are so after it,
    whether the run returns or raises.  A new row takes one more than the
    largest id in use or, when that is the largest rowid there is, an id the
    engine draws; the engine only settles on an id that is not in use. *)
Theorem SQL_update_database_keeps_primary_key :
  forall random_rowid db data0,
    (forall table, ~ In (random_rowid table) (map prod_id table)) ->
    NoDup (map prod_id (create_table_if_not_exists (Apple_Products db))) ->
    NoDup (map prod_id
             (create_table_if_not_exists
                (Apple_Products (fst (SQL_update_database random_rowid db data0))))).
Proof.
  intros random_rowid db data0 Hdraw Hnodup. unfold SQL_update_database.
  destruct (update_products random_rowid (Apple_Categories db) data0 (dict_keys data0)
              (create_table_if_not_exists (Apple_Products db))) as [rows'|e] eqn:Hrun;
    cbn [fst Apple_Products create_table_if_not_exists].
  - exact (update_products_ids _ _ _ Hdraw _ _ _ Hrun Hnodup).
  - exact Hnodup.
Qed.

(** The stand-in draw never gives an id in use: among the first
    [length rows + 1] positive ids one is free. *)
Lemma sample_random_rowid_unused (table : list product_row) :
  ~ In (sample_random_rowid table) (map prod_id table).
Proof.
  unfold sample_random_rowid.
  destruct (find (fun n => negb (existsb (Z.eqb n) (map prod_id table)))
                 (map Z.of_nat (seq 1 (S (length table))))) as [n|] eqn:Hfind.
  - apply find_some in Hfind as [_ Hfree]. apply negb_true_iff in Hfree.
    intros Hin. assert (Htrue : existsb (Z.eqb n) (map prod_id table) = true).
    { apply existsb_exists. exists n. split; [exact Hin | apply Z.eqb_refl]. }
    congruence.
  - exfalso.
    assert (Hincl : incl (map Z.of_nat (seq 1 (S (length table)))) (map prod_id table)).
    { intros n Hn. pose proof (find_none _ _ Hfind n Hn) as Hused.
      cbv beta in Hused. apply negb_false_iff in Hused.
      apply existsb_exists in Hused as (m & Hm & Heq).
      apply Z.eqb_eq in Heq. subst m. exact Hm. }
    assert (Hnodup : NoDup (map Z.of_nat (seq 1 (S (length table))))).
    { generalize (seq_NoDup (S (length table)) 1).
      generalize (seq 1 (S (length table))) as l.
      induction l as [|a l IH]; intros Hl; cbn [map]; [constructor|].
      apply NoDup_cons_iff in Hl as [Ha Hl]. constructor; [|exact (IH Hl)].
      intros Hin. apply in_map_iff in Hin as (b & Heq & Hb).
      apply Nat2Z.inj in Heq. subst b. exact (Ha Hb). }
    pose proof (NoDup_incl_length Hnodup Hincl) as Hlen.
    rewrite !length_map, length_seq in Hlen. lia.
Qed.

Lemma SQL_update_database_keeps_primary_key_witness :
  NoDup (map prod_id
           (create_table_if_not_exists
              (Apple_Products
                 (fst (SQL_update_database sample_random_rowid
                         (mk_database (Some seeded_categories)
                                      (Some [mk_product_row MAX_ROWID "Apple II" "1977" 0]))
                         [("Lisa", mk_entry "1983" "Lisa")]))))).
Proof.
  apply SQL_update_database_keeps_primary_key.
  - exact sample_random_rowid_unused.
  - simpl. constructor; [intros [] | constructor].
Defined.

(** X14.  In a database whose category table is new (absent or empty when
    the run starts), the mirror succeeds exactly when every record of the
    store is labelled with one of the seven categories. *)
Theorem mirror_succeeds_iff_labels_known :
  forall random_rowid db data0,
    create_table_if_not_exists (Apple_Categories db) = [] ->
    (snd (SQL_update_database random_rowid (SQL_create_categories db) data0) = Return tt
     <-> forall name details,
           dict_get name data0 = Some details -> In (category details) categories).
Proof.
  intros random_rowid db data0 Hnew.
  assert (Hcats : Apple_Categories (SQL_create_categories db) = Some seeded_categories).
  { unfold SQL_create_categories. cbn [Apple_Categories]. rewrite Hnew. reflexivity. }
  assert (Hlabels : forall label,
             In label categories <-> exists c, In c seeded_categories /\ cat_category c = label).
  { intros label.
    change categories with (map cat_category seeded_categories). split.
    - intros Hin. apply in_map_iff in Hin as (c & Hlabel & Hc).
      exists c. split; assumption.
    - intros (c & Hc & Hlabel). apply in_map_iff. exists c. split; assumption. }
  unfold SQL_update_database. rewrite Hcats. split.
  - intros Hok name details Hget.
    destruct (update_products random_rowid (Some seeded_categories) data0 (dict_keys data0)
                (create_table_if_not_exists (Apple_Products (SQL_create_categories db))))
      as [rows'|e] eqn:Hrun; [|discriminate Hok].
    assert (Hkey : In name (dict_keys data0)).
    { apply dict_get_some_in_keys. congruence. }
    destruct (update_products_returns _ _ _ _ _ _ Hrun name Hkey)
      as (details' & id & Hget' & Hsel).
    rewrite Hget in Hget'. injection Hget' as Hd. subst details'.
    destruct (select_category_id_row _ _ _ Hsel) as (rows & c & Hrows & Hc & Hlabel & _).
    injection Hrows as Hrows. subst rows.
    apply Hlabels. exists c. split; assumption.
  - intros Hknown.
    assert (Hres : forall key, In key (dict_keys data0) ->
                               resolves (Some seeded_categories) data0 key).
    { intros key Hin. destruct (dict_get_present _ _ Hin) as [details Hget].
      pose proof (proj1 (Hlabels _) (Hknown _ _ Hget)) as (c & Hc & Hlabel).
      exists details. unfold select_category_id.
      destruct (find (fun r => cat_category r =? category details) seeded_categories)
        as [c'|] eqn:Hfind.
      - exists (cat_id c'). split; [exact Hget | reflexivity].
      - exfalso. pose proof (find_none _ _ Hfind c Hc) as Hnone.
        cbv beta in Hnone. rewrite Hlabel, String.eqb_refl in Hnone.
        discriminate Hnone. }
    destruct (update_products_runs random_rowid (Some seeded_categories) data0
                (dict_keys data0)
                (create_table_if_not_exists (Apple_Products (SQL_create_categories db)))
                Hres) as (new & Hrun & _).
    rewrite Hrun. reflexivity.
Qed.

Lemma mirror_succeeds_iff_labels_known_witness :
  snd (SQL_update_database sample_random_rowid (SQL_create_categories (mk_database None None)) stale_store)
  <> Return tt.
Proof.
  intros Hok.
  pose proof (proj1 (mirror_succeeds_iff_labels_known sample_random_rowid
                       (mk_database None None) stale_store eq_refl)
                    Hok "Apple Watch" (mk_entry "2015" "N/A") eq_refl) as Hin.
  simpl in Hin.
  repeat (destruct Hin as [Hin | Hin]; [discriminate Hin|]).
  exact Hin.
Defined.

(** * Whole runs *)

Lemma load_JSON_returns (json_load : string -> outcome store) (proc : process)
    (fs : filesystem) (filename : string) :
  exists loaded, load_JSON json_load proc fs filename = Return loaded.
Proof.
  unfold load_JSON, open_read, try_except.
  destruct (fs (resolve proc (load_path proc filename))) as [contents|]; cbn [bind].
  - destruct (json_load contents) as [loaded|e]; cbn [bind].
    + exists loaded. reflexivity.
    + exists []. reflexivity.
  - exists []. reflexivity.
Qed.

(** X15.  A run that ends normally has written the whole store, the loaded
    records followed by at most 25 new ones, to the JSON file of the working
    directory, and has left exactly one product row for every name of that
    store; the product table is assumed to satisfy its [UNIQUE] constraint
    when the run starts. *)
Theorem main_returns :
  forall json_load json_dump random_rowid proc fs db doc fs' db',
    main json_load json_dump random_rowid proc fs db doc = (fs', db', Return tt) ->
    NoDup (map prod_name (create_table_if_not_exists (Apple_Products db))) ->
    exists loaded added,
      load_JSON json_load proc fs "apple_products.json" = Return loaded
      /\ length added <= 25
      /\ fs' = write_JSON json_dump proc fs "apple_products.json" (loaded ++ added)
      /\ fs' (resolve proc "apple_products.json") = Some (json_dump (loaded ++ added))
      /\ (forall name,
            In name (dict_keys (loaded ++ added)) ->
            length (rows_named name (create_table_if_not_exists (Apple_Products db'))) = 1).
Proof.
  intros json_load json_dump random_rowid proc fs db doc fs' db' Hmain Hunique.
  unfold main, add_entries_to_JSON in Hmain.
  destruct (load_JSON_returns json_load proc fs "apple_products.json") as [loaded Hload].
  rewrite Hload in Hmain.
  destruct (add_25_entries_store doc loaded) as (added & Hd & Hle & _ & _ & _).
  destruct (add_25_entries doc loaded) as [data1 [n|e]] eqn:Hcall;
    [|injection Hmain as _ _ Hraise; discriminate Hraise].
  cbn [fst] in Hd. subst data1.
  destruct (SQL_update_database random_rowid (SQL_create_categories db) (loaded ++ added))
    as [db2 result] eqn:Hsql.
  injection Hmain as Hfs Hdb Hresult. subst fs' db2 result.
  exists loaded, added. split; [exact Hload | split; [exact Hle | split; [reflexivity|]]].
  split.
  - unfold write_JSON, open_write. rewrite String.eqb_refl. reflexivity.
  - unfold SQL_update_database in Hsql.
    destruct (update_products random_rowid (Apple_Categories (SQL_create_categories db))
                (loaded ++ added) (dict_keys (loaded ++ added))
                (create_table_if_not_exists (Apple_Products (SQL_create_categories db))))
      as [rows'|e] eqn:Hrun; [|discriminate Hsql].
    injection Hsql as Hdb. subst db'.
    cbn [Apple_Products create_table_if_not_exists].
    pose proof (update_products_returns _ _ _ _ _ _ Hrun) as Hres.
    destruct (update_products_runs random_rowid _ _ _
                (create_table_if_not_exists (Apple_Products (SQL_create_categories db)))
                Hres) as (new & Hrun' & Htaken & Hnodup).
    rewrite Hrun in Hrun'. injection Hrun' as Hrows. subst rows'.
    intros name Hin. apply one_row_per_name; [apply Hnodup, Hunique | apply Htaken, Hin].
Qed.

Lemma main_returns_witness :
  exists loaded added,
    load_JSON sample_json_load sample_process empty_disk "apple_products.json"
    = Return loaded
    /\ length added <= 25
    /\ write_JSON sample_json_dump sample_process empty_disk "apple_products.json"
                  [("Lisa", mk_entry "1983" "Lisa")]
         (resolve sample_process "apple_products.json")
       = Some (sample_json_dump (loaded ++ added)).
Proof.
  destruct (main_returns sample_json_load sample_json_dump sample_random_rowid
              sample_process empty_disk
              (mk_database None None) [lisa_row]
              (write_JSON sample_json_dump sample_process empty_disk
                          "apple_products.json" [("Lisa", mk_entry "1983" "Lisa")])
              (mk_database (Some seeded_categories)
                           (Some [mk_product_row 1 "Lisa" "1983" 1]))
              eq_refl)
    as (loaded & added & Hload & Hle & _ & Hfile & _).
  - simpl. constructor.
  - exists loaded, added. split; [exact Hload | split; [exact Hle | exact Hfile]].
Defined.

(** X16.  A run in which a row raises writes nothing: the files on disk are
    as they were, the records gathered before the bad row are not saved,
    and the database has only been seeded with the categories. *)
Theorem main_raises_writes_nothing :
  forall json_load json_dump random_rowid proc fs db doc loaded e,
    load_JSON json_load proc fs "apple_products.json" = Return loaded ->
    snd (add_25_entries doc loaded) = Raise e ->
    main json_load json_dump random_rowid proc fs db doc = (fs, SQL_create_categories db, Raise e).
Proof.
  intros json_load json_dump random_rowid proc fs db doc loaded e Hload Hraise.
  unfold main, add_entries_to_JSON. rewrite Hload.
  destruct (add_25_entries doc loaded) as [data1 result].
  cbn [snd] in Hraise. subst result. reflexivity.
Qed.

Lemma main_raises_writes_nothing_witness :
  main sample_json_load sample_json_dump sample_random_rowid
       sample_process empty_disk
       (mk_database None None)
       [span_first; mk_tr (Some "FFFF79") (Some (mk_td None "1978")) None]
  = (empty_disk, mk_database (Some seeded_categories) None, Raise AttributeError).
Proof.
  exact (main_raises_writes_nothing sample_json_load sample_json_dump
           sample_random_rowid sample_process
           empty_disk (mk_database None None)
           [span_first; mk_tr (Some "FFFF79") (Some (mk_td None "1978")) None]
           [] AttributeError eq_refl eq_refl).
Defined.



(** * The database file *)

Lemma sep_join_split_slash (s : string) : PosixNorm.sep_join (split_slash s) = s.
Proof.
  induction s as [|c s IH]; [reflexivity|].
  cbn [split_slash].
  pose proof (split_slash_not_nil s) as Hnil.
  destruct (split_slash s) as [|comp comps]; [contradiction|].
  destruct (Ascii.eqb_spec c "/"%char) as [Hc | Hc].
  - subst c. change (PosixNorm.sep_join (EmptyString :: comp :: comps))
      with (String "/"%char (PosixNorm.sep_join (comp :: comps))).
    rewrite IH. reflexivity.
  - destruct comps as [|comp2 comps].
    + cbn [PosixNorm.sep_join] in *. rewrite IH. reflexivity.
    + change (PosixNorm.sep_join (String c comp :: comp2 :: comps))
        with (String c (comp ++ "/" ++ PosixNorm.sep_join (comp2 :: comps))%string).
      change (PosixNorm.sep_join (comp :: comp2 :: comps))
        with (comp ++ "/" ++ PosixNorm.sep_join (comp2 :: comps))%string in IH.
      rewrite IH. reflexivity.
Qed.

Lemma normpath_keeps_proper (slashes : nat) (comps : list string) :
  forallb proper_component comps = true ->
  forall acc,
    fold_left (PosixNorm.normpath_step slashes) comps acc = acc ++ comps.
Proof.
  induction comps as [|comp comps IH]; intros Hproper acc; cbn [fold_left].
  - rewrite app_nil_r. reflexivity.
  - cbn [forallb] in Hproper. apply andb_true_iff in Hproper as [Hcomp Hrest].
    unfold proper_component in Hcomp.
    apply andb_true_iff in Hcomp as [Hcomp Hdotdot].
    apply andb_true_iff in Hcomp as [Hempty Hdot].
    apply negb_true_iff in Hempty, Hdot.
    unfold PosixNorm.normpath_step at 2. rewrite Hempty, Hdot, Hdotdot. cbn [orb].
    rewrite (IH Hrest), <- app_assoc. reflexivity.
Qed.

Lemma is_absolute_head (c : ascii) (rest : string) :
  PosixPath.is_absolute (String c rest) = true -> c = "/"%char.
Proof.
  destruct c as [[] [] [] [] [] [] [] []]; cbn; intros H;
    try discriminate H; reflexivity.
Qed.

(** [normpath] leaves a normalised absolute path as it is. *)
Lemma normpath_normalized (p : string) :
  normalized_directory p = true -> PosixNorm.normpath p = p.
Proof.
  intros H.
  destruct (normalized_directory_cases p H) as [Hroot | (Hnot & Habs & _)].
  - subst p. reflexivity.
  - unfold normalized_directory in H.
    rewrite (proj2 (String.eqb_neq _ _) Hnot) in H. cbn [orb] in H.
    apply andb_true_iff in H as [_ Hproper].
    destruct p as [|c rest]; [discriminate Habs|].
    apply is_absolute_head in Habs. subst c.
    cbn [split_slash] in Hproper.
    pose proof (split_slash_not_nil rest) as Hnil.
    pose proof (sep_join_split_slash rest) as Hjoin.
    unfold PosixNorm.normpath. cbn [split_slash].
    destruct (split_slash rest) as [|comp comps] eqn:Hsplit; [contradiction|].
    change (Ascii.eqb "/" "/") with true in *. cbn [tl] in Hproper.
    assert (Hslashes : PosixNorm.initial_slashes (String "/" rest) = 1).
    { destruct rest as [|c2 r2]; [reflexivity|].
      unfold PosixNorm.initial_slashes. cbn [String.prefix].
      destruct (ascii_dec "/" "/") as [_ | Hne]; [|exfalso; apply Hne; reflexivity].
      destruct (ascii_dec "/" c2) as [Hc2 | Hc2]; [|reflexivity].
      exfalso. subst c2. cbn [split_slash] in Hsplit.
      pose proof (split_slash_not_nil r2) as Hnil2.
      destruct (split_slash r2) as [|comp2 comps2]; [contradiction|].
      change (Ascii.eqb "/" "/") with true in Hsplit.
      injection Hsplit as Hcomp _. subst comp.
      cbn [forallb] in Hproper. discriminate Hproper. }
    rewrite Hslashes.
    change (String "/" rest =? "") with false. cbv iota zeta.
    cbn [fold_left].
    change (PosixNorm.normpath_step 1 [] "") with (@nil string).
    change (fold_left (PosixNorm.normpath_step 1) comps
              (PosixNorm.normpath_step 1 [] comp))
      with (fold_left (PosixNorm.normpath_step 1) (comp :: comps) []).
    rewrite (normpath_keeps_proper 1 (comp :: comps) Hproper []).
    cbn [app PosixNorm.slashes_string String.append].
    rewrite Hjoin. reflexivity.
Qed.

(** X18.  For a script at a normalised absolute path the database file is
    the file of that name in the directory of the script, whatever the
    working directory; unless that directory is the root, it is the path
    [load_JSON] would open for the same name. *)
Theorem open_database_beside_script :
  forall proc db_name,
    normalized_directory (dunder_file proc) = true ->
    normalized_directory (PosixPath.dirname (dunder_file proc)) = true ->
    plain_filename db_name = true ->
    open_database proc db_name
    = (PosixPath.dirname (dunder_file proc) ++ "/" ++ db_name)%string
    /\ (PosixPath.dirname (dunder_file proc) <> "/" ->
        open_database proc db_name = resolve proc (load_path proc db_name)).
Proof.
  intros proc db_name Hfile Hdir Hname.
  assert (Hopen : open_database proc db_name
                  = (PosixPath.dirname (dunder_file proc) ++ "/" ++ db_name)%string).
  { unfold open_database, abspath.
    destruct (normalized_directory_cases _ Hfile) as [Hroot | (_ & Habs & _)].
    - rewrite Hroot. reflexivity.
    - rewrite Habs, (normpath_normalized _ Hfile). reflexivity. }
  split; [exact Hopen|].
  intros Hnotroot. rewrite Hopen.
  pose proof (plain_filename_relative db_name Hname) as Hrel.
  unfold resolve, load_path.
  rewrite (join_normalized_directory _ _ Hdir Hrel).
  unfold PosixPath.join at 1. rewrite (dir_prefix_absolute _ db_name Hdir).
  unfold dir_prefix. rewrite (proj2 (String.eqb_neq _ _) Hnotroot).
  rewrite string_app_assoc. reflexivity.
Qed.

Lemma open_database_beside_script_witness :
  open_database sample_process "Apptendo.db" = "/home/user/project/Apptendo.db".
Proof.
  destruct (open_database_beside_script sample_process "Apptendo.db"
              eq_refl eq_refl eq_refl) as [Hopen _].
  exact Hopen.
Defined.
